(** * Market trend analyzer: indicator engine and trend classifier

    A shallow embedding of [market_trend_analyzer.py] (class
    [MarketTrendAnalyzer]) together with the properties of its indicator
    computations.

    Conventions of the embedding.
    - A float64 cell is a value of [float]: NaN, the two infinities, or a
      finite number carried as an exact canonical rational.  Rounding is not
      modelled and the sign of zero is not tracked (a zero divisor is taken as
      [+0.0]).
    - A pandas [Series] of numbers is a [list float]; all series derived from
      one frame share its index, so index alignment is position in the list.
    - The analyzer object is the record [analyzer]; a method is a function
      from the object to the object after the call paired with either the
      returned value or the raised exception.  Log lines are not modelled.
    - The pandas calls used by the program ([rolling(window).mean()],
      [ewm(span, adjust=False).mean()], [diff], [where]) are embedded after
      their behaviour, including the argument checks that raise
      [ValueError] and the 64-bit window bounds of the rolling mean.  Both
      windowed aggregations read an infinite cell as missing.  A price
      column is a column without infinite cells: finite quotes and NaN
      gaps.
    - Texts are byte strings; the market type is lower-cased as ASCII.
    - The market-data collaborators are represented by what they returned;
      their failures are outside the embedding. *)

From Stdlib Require Import ZArith QArith Qcanon Ascii String.
From stdpp Require Import base numbers list gmap strings pretty.

Local Open Scope Z_scope.

(** ** Float values *)

Inductive float : Type :=
  | NaN
  | PInf
  | NInf
  | Fin (q : Qc).

Definition Qz (n : Z) : Qc := Qc_of_Z n.
Definition Fz (n : Z) : float := Fin (Qz n).

Definition is_nan (x : float) : bool :=
  match x with NaN => true | _ => false end.

Definition is_finite (x : float) : bool :=
  match x with Fin _ => true | _ => false end.

Definition is_inf (x : float) : bool :=
  match x with PInf | NInf => true | _ => false end.

(** [signed_inf a] is the infinity carrying the sign of [a]; a zero [a] has
    no sign to give and yields NaN (as in [0 * inf] and [0 / 0]). *)
Definition signed_inf (a : Qc) : float :=
  if bool_decide (0 < a)%Qc then PInf
  else if bool_decide (a < 0)%Qc then NInf
  else NaN.

Definition fopp (x : float) : float :=
  match x with
  | NaN => NaN
  | PInf => NInf
  | NInf => PInf
  | Fin a => Fin (- a)%Qc
  end.

Definition fadd (x y : float) : float :=
  match x, y with
  | NaN, _ | _, NaN => NaN
  | PInf, NInf | NInf, PInf => NaN
  | PInf, _ | _, PInf => PInf
  | NInf, _ | _, NInf => NInf
  | Fin a, Fin b => Fin (a + b)%Qc
  end.

Definition fsub (x y : float) : float := fadd x (fopp y).

Definition fmul (x y : float) : float :=
  match x, y with
  | NaN, _ | _, NaN => NaN
  | Fin a, Fin b => Fin (a * b)%Qc
  | Fin a, PInf | PInf, Fin a => signed_inf a
  | Fin a, NInf | NInf, Fin a => signed_inf (- a)%Qc
  | PInf, PInf | NInf, NInf => PInf
  | PInf, NInf | NInf, PInf => NInf
  end.

Definition fdiv (x y : float) : float :=
  match x, y with
  | NaN, _ | _, NaN => NaN
  | Fin a, Fin b =>
      if bool_decide (b = 0%Qc) then signed_inf a else Fin (a / b)%Qc
  | Fin _, PInf | Fin _, NInf => Fin 0%Qc
  | PInf, Fin b => if bool_decide (b < 0)%Qc then NInf else PInf
  | NInf, Fin b => if bool_decide (b < 0)%Qc then PInf else NInf
  | _, _ => NaN
  end.

(** Comparisons: every comparison with NaN is false, [!=] with NaN is true. *)
Definition flt (x y : float) : bool :=
  match x, y with
  | NaN, _ | _, NaN => false
  | _, NInf => false
  | NInf, _ => true
  | PInf, _ => false
  | Fin _, PInf => true
  | Fin a, Fin b => bool_decide (a < b)%Qc
  end.

Definition fgt (x y : float) : bool := flt y x.

Definition feq (x y : float) : bool :=
  match x, y with
  | PInf, PInf | NInf, NInf => true
  | Fin a, Fin b => bool_decide (a = b)
  | _, _ => false
  end.

Definition fne (x y : float) : bool := negb (feq x y).

(** Structural equality test on cells (NaN equal to NaN), used to compare
    computed series with expected ones. *)
Definition float_eqb (x y : float) : bool :=
  match x, y with
  | NaN, NaN | PInf, PInf | NInf, NInf => true
  | Fin a, Fin b => Qc_eq_bool a b
  | _, _ => false
  end.

Fixpoint floats_eqb (xs ys : list float) : bool :=
  match xs, ys with
  | [], [] => true
  | x :: xs', y :: ys' => float_eqb x y && floats_eqb xs' ys'
  | _, _ => false
  end.

(** ** Exceptions and results *)

Inductive exn : Type :=
  | ValueError (msg : string)
  | TypeError (msg : string)
  | AttributeError (msg : string)
  | IndexError (msg : string)
  | OverflowError.

Inductive result (A : Type) : Type :=
  | Ok (a : A)
  | Raise (e : exn).
Arguments Ok {A} a.
Arguments Raise {A} e.

Definition rbind {A B} (r : result A) (k : A → result B) : result B :=
  match r with
  | Ok a => k a
  | Raise e => Raise e
  end.

Notation "'let?' x := r 'in' k" := (rbind r (fun x => k))
  (at level 10, x pattern, r at level 100, k at level 200).

Definition is_ok {A} (r : result A) : bool :=
  match r with Ok _ => true | Raise _ => false end.

(** ** The pandas operations used by the program *)

Module Pandas.

(** [Series.sum]-like accumulation of the observations of a window. *)
Definition fsum (xs : list float) : float := foldr fadd (Fz 0) xs.

(** The cells of [xs] seen by a fixed window of [w] rows ending at row [i]:
    rows [i-w+1 .. i], cut at the start of the series. *)
Definition window_at (w i : nat) (xs : list float) : list float :=
  drop (S i - w) (take (S i) xs).

(** Windowed aggregations, rolling and exponentially weighted alike, first
    replace every infinite cell of the column by NaN. *)
Definition prep_values (xs : list float) : list float :=
  map (fun x => if is_inf x then NaN else x) xs.

(** Mean of one window.  Only finite cells are observations (the infinite
    cells count as the NaN that [prep_values] puts in their place); the
    result is missing unless at least [minp] observations, and at least
    one, are present. *)
Definition window_mean (minp : nat) (win : list float) : float :=
  let obs := List.filter is_finite win in
  let nobs := length obs in
  if (minp <=? nobs)%nat && (0 <? nobs)%nat
  then fdiv (fsum obs) (Fz (Z.of_nat nobs))
  else NaN.

(** [s.rolling(window=w).mean()], with [min_periods] left at its default,
    the window size.  A negative window is rejected when the rolling
    object is built; a window of zero is accepted.  The bounds of the
    windows are computed on 64-bit integers, as are the positions of a
    column: a window of [2^63] or more, which exceeds every column that can
    be held, does not fit and the computation raises [OverflowError] (its
    message depends on the numeric library and is not modelled).  No
    meaning is given to such a window on a column of [2^63] rows or more,
    which does not exist: there the arithmetic stays unbounded. *)
Definition rolling_mean (w : Z) (xs : list float) : result (list float) :=
  if bool_decide (w < 0)
  then Raise (ValueError "window must be an integer 0 or greater")
  else if bool_decide (2 ^ 63 ≤ w ∧ Z.of_nat (length xs) < 2 ^ 63)
  then Raise OverflowError
  else
    let n := Z.to_nat w in
    Ok (map (fun i => window_mean n (window_at n i xs)) (seq 0 (length xs))).

(** One step of the exponentially weighted mean with [adjust=False],
    [ignore_na=False]: state is the running mean [weighted], the weight
    [old_wt] of that mean and the number [nobs] of observations so far.
    An observation is a cell that is not NaN; the cells this step is given
    come out of [prep_values], so they are numbers or NaN. *)
Definition ewm_step (alpha : Qc) (st : float * Qc * nat) (cur : float)
  : float * Qc * nat :=
  let '(weighted, old_wt, nobs) := st in
  let is_observation := negb (is_nan cur) in
  let nobs' := if is_observation then S nobs else nobs in
  if negb (is_nan weighted) then
    let old_wt1 := (old_wt * (1 - alpha))%Qc in
    if is_observation then
      let weighted' :=
        if fne weighted cur
        then fdiv (fadd (fmul (Fin old_wt1) weighted) (fmul (Fin alpha) cur))
                  (Fin (old_wt1 + alpha)%Qc)
        else weighted in
      (weighted', 1%Qc, nobs')
    else (weighted, old_wt1, nobs')
  else if is_observation then (cur, old_wt, nobs')
  else (weighted, old_wt, nobs').

Definition ewm_out (st : float * Qc * nat) : float :=
  let '(weighted, _, nobs) := st in
  if (1 <=? nobs)%nat then weighted else NaN.

Fixpoint ewm_loop (alpha : Qc) (st : float * Qc * nat) (xs : list float)
  : list float :=
  match xs with
  | [] => []
  | cur :: rest =>
      let st' := ewm_step alpha st cur in
      ewm_out st' :: ewm_loop alpha st' rest
  end.

(** Smoothing factor from the span: [com = (span-1)/2],
    [alpha = 1/(1+com)]. *)
Definition alpha_of_span (span : Z) : Qc :=
  let com := ((Qz span - 1) / 2)%Qc in
  (1 / (1 + com))%Qc.

(** [s.ewm(span=span, adjust=False).mean()].  A span below 1 is rejected
    when the object is built.  The mean runs over the column with its
    infinite cells replaced by NaN.  The span enters the computation as a
    float; the range of floats is not modelled, so the span has no upper
    limit here. *)
Definition ewm_mean (span : Z) (xs : list float) : result (list float) :=
  if bool_decide (span < 1)
  then Raise (ValueError "span must satisfy: span >= 1")
  else
    match prep_values xs with
    | [] => Ok []
    | x0 :: rest =>
        let st0 := (x0, 1%Qc, if is_nan x0 then 0%nat else 1%nat) in
        Ok (ewm_out st0 :: ewm_loop (alpha_of_span span) st0 rest)
    end.

(** [s.diff()]: first cell missing, then the difference with the previous
    row. *)
Definition diff (xs : list float) : list float :=
  match xs with
  | [] => []
  | _ :: rest => NaN :: zip_with fsub rest xs
  end.

(** [s.where(cond, other)] with the condition computed cell by cell. *)
Definition where_ (cond : float → bool) (other : float) (xs : list float)
  : list float :=
  map (fun x => if cond x then x else other) xs.

(** [s.iloc[i]]. *)
Definition iloc {A} (xs : list A) (i : nat) : result A :=
  match xs !! i with
  | Some x => Ok x
  | None => Raise (IndexError "single positional indexer is out-of-bounds")
  end.

End Pandas.

(** ** The analyzer object *)

(** One row of the frame held in [self.data]; [Date] is a timestamp in
    milliseconds. *)
Record Row : Type := mkRow {
  Date : Z;
  Open : float;
  High : float;
  Low : float;
  Close : float;
  Volume : float;
}.

Definition DataFrame : Type := list Row.

Definition closes (df : DataFrame) : list float := map Close df.

Inductive TrendLabel : Type := Bullish | Bearish | Neutral.

(** A value of the [self.indicators] dict: a numeric series or the label
    series stored under ["Trend"]. *)
Inductive series : Type :=
  | Floats (xs : list float)
  | Labels (ls : list TrendLabel).

Definition series_length (s : series) : nat :=
  match s with
  | Floats xs => length xs
  | Labels ls => length ls
  end.

(** The object.  [self.indicators] is embedded as a finite map from keys to
    series: the order in which the keys were first inserted, which only the
    export reads, is not part of it. *)
Record analyzer : Type := mkAnalyzer {
  symbol : string;
  market_type : string;
  timeframe : string;
  data : option DataFrame;
  indicators : gmap string series;
}.

Definition set_data (d : DataFrame) (a : analyzer) : analyzer :=
  mkAnalyzer (symbol a) (market_type a) (timeframe a) (Some d) (indicators a).

Definition set_indicator (k : string) (s : series) (a : analyzer) : analyzer :=
  mkAnalyzer (symbol a) (market_type a) (timeframe a) (data a)
             (<[k := s]> (indicators a)).

(** A method call: the object after the call, and what the call returned or
    raised.  An exception leaves the mutations made before it in place. *)
Definition method (A : Type) : Type := analyzer → analyzer * result A.

Definition mret {A} (x : A) : method A := fun a => (a, Ok x).

Definition mbind {A B} (m : method A) (k : A → method B) : method B :=
  fun a =>
    match m a with
    | (a', Ok x) => k x a'
    | (a', Raise e) => (a', Raise e)
    end.

Definition lift {A} (r : result A) : method A := fun a => (a, r).

Notation "'let*' x := m 'in' k" := (mbind m (fun x => k))
  (at level 10, x pattern, m at level 100, k at level 200).
Notation "'run' m 'then' k" := (mbind m (fun _ => k))
  (at level 10, m at level 100, k at level 200).

(** [self.data['Close']]: subscripting [None] raises [TypeError]. *)
Definition get_close : method (list float) :=
  fun a =>
    match data a with
    | Some df => (a, Ok (closes df))
    | None => (a, Raise (TypeError "'NoneType' object is not subscriptable"))
    end.

Definition store (k : string) (s : series) : method unit :=
  fun a => (set_indicator k s a, Ok tt).

(** ASCII lower-casing: what [str.lower] does to a text written in ASCII.
    [str.lower] also lower-cases letters outside ASCII; a market type
    holding such letters is outside this definition, and the properties of
    the constructor that depend on the lower-cased text are stated for
    ASCII market types. *)
Definition lower_ascii (c : ascii) : ascii :=
  let n := nat_of_ascii c in
  if (65 <=? n)%nat && (n <=? 90)%nat then ascii_of_nat (n + 32) else c.

Fixpoint lower (s : string) : string :=
  match s with
  | EmptyString => EmptyString
  | String c s' => String (lower_ascii c) (lower s')
  end.

Definition validate_inputs (a : analyzer) : result unit :=
  if negb (bool_decide (market_type a ∈ ["stock"; "crypto"]))
  then Raise (ValueError ("Invalid market type: " +:+ market_type a))
  else if bool_decide (symbol a = "")
  then Raise (ValueError "Symbol cannot be empty")
  else Ok tt.

(** [MarketTrendAnalyzer(symbol, market_type, timeframe)]. *)
Definition init (sym mkt tf : string) : result analyzer :=
  let a := mkAnalyzer sym (lower mkt) tf None ∅ in
  let? _ := validate_inputs a in Ok a.

(** What the two market-data collaborators hand back to [fetch_data]:
    the frame returned by [Ticker.history] and the rows returned by
    [fetch_ohlcv]. *)
Record feed : Type := mkFeed {
  yf_history : DataFrame;
  binance_ohlcv : DataFrame;
}.

(** [fetch_data], given what the collaborators returned: the stock branch
    assigns the frame, then raises if it is empty (the column selection and
    date conversion that follow keep the rows as they are); the crypto
    branch checks the timeframe, builds the frame and keeps the rows dated
    up to [end_date]; the closing log line takes [len(self.data)].  A
    failure of a collaborator (the network, the exchange, the parsing of a
    date text) is re-raised by the method and has no feed: it is not part
    of this definition, which describes the calls in which the
    collaborators answered.  [start_date] only selects what the
    collaborators return. *)
Definition fetch_data (src : feed) (end_date : Z) : method unit :=
  fun a =>
    if bool_decide (market_type a = "stock") then
      let a1 := set_data (yf_history src) a in
      match yf_history src with
      | [] =>
          (a1, Raise (ValueError
                 "No data retrieved for the given symbol and date range"))
      | _ => (a1, Ok tt)
      end
    else if bool_decide (market_type a = "crypto") then
      if negb (bool_decide (timeframe a ∈ ["1h"; "1d"; "1w"]))
      then (a, Raise (ValueError ("Unsupported timeframe: " +:+ timeframe a)))
      else
        let rows :=
          List.filter (fun r => bool_decide (Date r ≤ end_date))
                      (binance_ohlcv src) in
        (set_data rows a, Ok tt)
    else
      match data a with
      | Some _ => (a, Ok tt)
      | None =>
          (a, Raise (TypeError "object of type 'NoneType' has no len()"))
      end.

Definition calculate_sma (window : Z) : method (list float) :=
  let* close := get_close in
  let* sma := lift (Pandas.rolling_mean window close) in
  run store ("SMA_" +:+ pretty window) (Floats sma) then
  mret sma.

Definition calculate_ema (window : Z) : method (list float) :=
  let* close := get_close in
  let* ema := lift (Pandas.ewm_mean window close) in
  run store ("EMA_" +:+ pretty window) (Floats ema) then
  mret ema.

(** The local series of [calculate_rsi]. *)
Definition rsi_delta (close : list float) : list float := Pandas.diff close.

Definition rsi_gain_raw (close : list float) : list float :=
  Pandas.where_ (fun d => fgt d (Fz 0)) (Fz 0) (rsi_delta close).

Definition rsi_loss_raw (close : list float) : list float :=
  map fopp (Pandas.where_ (fun d => flt d (Fz 0)) (Fz 0) (rsi_delta close)).

Definition rsi_gain (periods : Z) (close : list float) : result (list float) :=
  Pandas.rolling_mean periods (rsi_gain_raw close).

Definition rsi_loss (periods : Z) (close : list float) : result (list float) :=
  Pandas.rolling_mean periods (rsi_loss_raw close).

Definition rsi_of (gain loss : list float) : list float :=
  let rs := zip_with fdiv gain loss in
  map (fun x => fsub (Fz 100) (fdiv (Fz 100) (fadd (Fz 1) x))) rs.

Definition rsi_series (periods : Z) (close : list float)
  : result (list float) :=
  let? gain := rsi_gain periods close in
  let? loss := rsi_loss periods close in
  Ok (rsi_of gain loss).

Definition calculate_rsi (periods : Z) : method (list float) :=
  let* close := get_close in
  let* rsi := lift (rsi_series periods close) in
  run store "RSI" (Floats rsi) then
  mret rsi.

Definition macd_series (fast slow signal : Z) (close : list float)
  : result (list float * list float * list float) :=
  let? ema_fast := Pandas.ewm_mean fast close in
  let? ema_slow := Pandas.ewm_mean slow close in
  let macd := zip_with fsub ema_fast ema_slow in
  let? signal_line := Pandas.ewm_mean signal macd in
  let histogram := zip_with fsub macd signal_line in
  Ok (macd, signal_line, histogram).

Definition calculate_macd (fast slow signal : Z)
  : method (list float * list float * list float) :=
  let* close := get_close in
  let* lines := lift (macd_series fast slow signal close) in
  let '(macd, signal_line, histogram) := lines in
  run store "MACD" (Floats macd) then
  run store "Signal" (Floats signal_line) then
  run store "Histogram" (Floats histogram) then
  mret (macd, signal_line, histogram).

(** Body of the loop of [detect_trend] for row [i]; the second operand of
    each [and] is read only when the first comparison holds. *)
Definition trend_body (sma_short sma_long rsi : list float) (i : nat)
    (trend : list TrendLabel) : result (list TrendLabel) :=
  let? s := Pandas.iloc sma_short i in
  let? l := Pandas.iloc sma_long i in
  let? bull :=
    (if fgt s l then let? r := Pandas.iloc rsi i in Ok (fgt r (Fz 50))
     else Ok false) in
  if bull then Ok (<[i := Bullish]> trend)
  else
    let? s' := Pandas.iloc sma_short i in
    let? l' := Pandas.iloc sma_long i in
    let? bear :=
      (if flt s' l' then let? r := Pandas.iloc rsi i in Ok (flt r (Fz 50))
       else Ok false) in
    if bear then Ok (<[i := Bearish]> trend) else Ok trend.

Fixpoint trend_loop (sma_short sma_long rsi : list float) (idx : list nat)
    (trend : list TrendLabel) : result (list TrendLabel) :=
  match idx with
  | [] => Ok trend
  | i :: rest =>
      let? trend' := trend_body sma_short sma_long rsi i trend in
      trend_loop sma_short sma_long rsi rest trend'
  end.

(** [self.data.index] / [len(self.data)] in [detect_trend]. *)
Definition data_length : method nat :=
  fun a =>
    match data a with
    | Some df => (a, Ok (length df))
    | None =>
        (a, Raise (AttributeError "'NoneType' object has no attribute 'index'"))
    end.

Definition detect_trend : method (list TrendLabel) :=
  let* sma_short := calculate_sma 20 in
  let* sma_long := calculate_sma 50 in
  let* rsi := calculate_rsi 14 in
  let* n := data_length in
  let* trend := lift (trend_loop sma_short sma_long rsi (seq 0 n)
                           (replicate n Neutral)) in
  run store "Trend" (Labels trend) then
  mret trend.

(** The computation part of [main]: fetch, then the indicators in the
    program's order, then the trend. *)
Definition compute_indicators : method unit :=
  run calculate_sma 20 then
  run calculate_sma 50 then
  run calculate_ema 20 then
  run calculate_rsi 14 then
  run calculate_macd 12 26 9 then
  mret tt.

Definition run_analysis (src : feed) (end_date : Z) : method unit :=
  run fetch_data src end_date then
  run compute_indicators then
  run detect_trend then
  mret tt.

(** ** Reference notions used to state the properties

    The notions below follow the wording of the specification (arithmetic
    mean, first-match rule, smoothing recurrence, a first difference that
    stays missing); the properties compare them with the embedding of the
    code above. *)

(** Arithmetic mean of a list of cells, in float arithmetic: the sum of all
    cells divided by their number. *)
Definition arith_mean (xs : list float) : float :=
  fdiv (Pandas.fsum xs) (Fz (Z.of_nat (length xs))).

(** The first-match rule on one row: Bullish, else Bearish, else Neutral. *)
Definition classify (sma20 sma50 rsi : float) : TrendLabel :=
  if fgt sma20 sma50 && fgt rsi (Fz 50) then Bullish
  else if flt sma20 sma50 && flt rsi (Fz 50) then Bearish
  else Neutral.

(** One step of the smoothing recurrence,
    [alpha * x + (1 - alpha) * prev], and the recurrence run along a series
    from a previous value [prev]. *)
Definition ema_next (alpha : Qc) (x prev : float) : float :=
  fadd (fmul (Fin alpha) x) (fmul (Fin (1 - alpha)%Qc) prev).

Fixpoint ema_rec (alpha : Qc) (prev : float) (xs : list float) : list float :=
  match xs with
  | [] => []
  | x :: rest =>
      let e := ema_next alpha x prev in
      e :: ema_rec alpha e rest
  end.


(** A cell that is not a negative number. *)
Definition nonneg_cell (x : float) : Prop :=
  match x with
  | Fin q => (0 ≤ q)%Qc
  | _ => True
  end.

(** The gain and the loss read off one price difference, as the two
    [where] calls of [calculate_rsi] compute them cell by cell. *)
Definition gain_cell (d : float) : float :=
  if fgt d (Fz 0) then d else Fz 0.

Definition loss_cell (d : float) : float :=
  fopp (if flt d (Fz 0) then d else Fz 0).

(** One RSI cell from the rolling average gain and loss of its row. *)
Definition rsi_cell (avg_gain avg_loss : float) : float :=
  fsub (Fz 100) (fdiv (Fz 100) (fadd (Fz 1) (fdiv avg_gain avg_loss))).

(** A price column holds finite quotes and NaN gaps, no infinite cell. *)
Definition price_series (xs : list float) : Prop :=
  Forall (fun x => is_inf x = false) xs.

Definition all_finite (xs : list float) : Prop :=
  Forall (fun x => is_finite x = true) xs.

(** Closes rising strictly from each row to the next. *)
Definition strictly_increasing (xs : list float) : Prop :=
  ∀ i x y, xs !! i = Some x → xs !! S i = Some y → flt x y = true.

(** The indicator calls a session can make once its frame is loaded. *)
Inductive call : Type :=
  | CallSMA (window : Z)
  | CallEMA (window : Z)
  | CallRSI (periods : Z)
  | CallMACD (fast slow signal : Z)
  | CallTrend.

Definition exec (c : call) (a : analyzer) : analyzer :=
  match c with
  | CallSMA w => fst (calculate_sma w a)
  | CallEMA w => fst (calculate_ema w a)
  | CallRSI p => fst (calculate_rsi p a)
  | CallMACD f s g => fst (calculate_macd f s g a)
  | CallTrend => fst (detect_trend a)
  end.

Definition exec_all (cs : list call) (a : analyzer) : analyzer :=
  foldl (fun acc c => exec c acc) a cs.

(** Every stored series has one cell per row of the frame. *)
Definition aligned (a : analyzer) : Prop :=
  ∀ df k s, data a = Some df → indicators a !! k = Some s →
            series_length s = length df.

(** The RSI of a reading in which the missing first difference stays
    missing: gain and loss are [max(delta, 0)] and [max(-delta, 0)] with NaN
    carried through. *)
Definition fmax0 (x : float) : float :=
  match x with
  | NaN => NaN
  | _ => if fgt x (Fz 0) then x else Fz 0
  end.

Definition rsi_series_nan_delta (periods : Z) (close : list float)
  : result (list float) :=
  let delta := Pandas.diff close in
  let? gain := Pandas.rolling_mean periods (map fmax0 delta) in
  let? loss :=
    Pandas.rolling_mean periods (map (fun d => fmax0 (fopp d)) delta) in
  Ok (rsi_of gain loss).

(** Sample frames. *)
Definition row_of (t : Z) (c : float) : Row := mkRow t c c c c (Fz 0).

Definition frame_of (cs : list float) : DataFrame :=
  imap (fun i c => row_of (Z.of_nat i) c) cs.

Definition ramp (start : Z) (n : nat) : list float :=
  map (fun i => Fz (start + Z.of_nat i)) (seq 0 n).

Definition session (mkt : string) (cs : list float) : analyzer :=
  mkAnalyzer "BTC/USDT" mkt "1d" (Some (frame_of cs)) ∅.

(** ** Notions used by the further properties *)


(** A cell that is a number between [lo] and [hi]. *)
Definition within (lo hi : Qc) (x : float) : Prop :=
  match x with
  | Fin q => (lo ≤ q)%Qc ∧ (q ≤ hi)%Qc
  | _ => False
  end.

(** The keys written by the default run of [main]. *)
Definition canonical_keys : gset string :=
  list_to_set ["SMA_20"; "SMA_50"; "EMA_20"; "RSI"; "MACD"; "Signal";
               "Histogram"; "Trend"].

(** A text written in ASCII: every byte is below 128. *)
Fixpoint ascii_text (s : string) : bool :=
  match s with
  | EmptyString => true
  | String c s' => (nat_of_ascii c <? 128)%nat && ascii_text s'
  end.

(** The timeframes the crypto branch of [fetch_data] accepts. *)
Definition supported_timeframe (tf : string) : Prop :=
  tf ∈ ["1h"; "1d"; "1w"].

(** Closes falling strictly from each row to the next, and a sample of
    them. *)
Definition strictly_decreasing (xs : list float) : Prop :=
  ∀ i x y, xs !! i = Some x → xs !! S i = Some y → flt y x = true.

Definition descent (start : Z) (n : nat) : list float :=
  map (fun i => Fz (start - Z.of_nat i)) (seq 0 n).

(** * Properties *)

(** ** Float arithmetic *)

Lemma float_eqb_eq x y : float_eqb x y = true → x = y.
Proof.
  destruct x, y; unfold float_eqb; try discriminate; try reflexivity.
  intros H. f_equal. apply Qc_eq_bool_correct, H.
Qed.

Lemma floats_eqb_eq xs ys : floats_eqb xs ys = true → xs = ys.
Proof.
  revert ys. induction xs as [|x xs IH]; intros [|y ys]; cbn [floats_eqb];
    try discriminate; try reflexivity.
  intros [Hx Hxs]%andb_prop. f_equal; [by apply float_eqb_eq | by apply IH].
Qed.

Lemma Qz_0 : Qz 0 = 0%Qc.
Proof. apply Z2Qc_inj_0. Qed.

Lemma Qz_1 : Qz 1 = 1%Qc.
Proof. apply Z2Qc_inj_1. Qed.

Lemma Qz_pos n : 0 < n → (0 < Qz n)%Qc.
Proof.
  intros H. apply (proj1 (Z2Qc_inj_lt 0 n)) in H.
  by rewrite Z2Qc_inj_0 in H.
Qed.

Lemma Qz_nonneg n : 0 ≤ n → (0 ≤ Qz n)%Qc.
Proof.
  intros H. apply (proj1 (Z2Qc_inj_le 0 n)) in H.
  by rewrite Z2Qc_inj_0 in H.
Qed.

Lemma Qz_ne_0 n : n ≠ 0 → Qz n ≠ 0%Qc.
Proof.
  intros H E. apply H, Z2Qc_inj. by rewrite Z2Qc_inj_0.
Qed.

Lemma fdiv_fin a b : b ≠ 0%Qc → fdiv (Fin a) (Fin b) = Fin (a / b)%Qc.
Proof. intros H. unfold fdiv. by rewrite bool_decide_eq_false_2. Qed.

Lemma flt_fin a b : flt (Fin a) (Fin b) = true ↔ (a < b)%Qc.
Proof. simpl. apply bool_decide_eq_true. Qed.

Lemma flt_nan_l y : flt NaN y = false.
Proof. reflexivity. Qed.

Lemma flt_nan_r x : flt x NaN = false.
Proof. by destruct x. Qed.

Lemma fgt_nan_l y : fgt NaN y = false.
Proof. apply flt_nan_r. Qed.

Lemma fgt_nan_r x : fgt x NaN = false.
Proof. reflexivity. Qed.

Lemma fsub_price x y :
  is_inf x = false → is_inf y = false → is_inf (fsub x y) = false.
Proof. by destruct x, y. Qed.

Lemma fadd_nan_r x : fadd x NaN = NaN.
Proof. by destruct x. Qed.

Lemma fdiv_nan_l y : fdiv NaN y = NaN.
Proof. reflexivity. Qed.

(** ** Rolling mean *)

Section rolling.
Import Pandas.

Lemma rolling_mean_ok w xs :
  0 ≤ w → w < 2 ^ 63 ∨ 2 ^ 63 ≤ Z.of_nat (length xs) →
  rolling_mean w xs =
    Ok (map (fun i => window_mean (Z.to_nat w) (window_at (Z.to_nat w) i xs))
            (seq 0 (length xs))).
Proof.
  intros Hw Hfit. unfold rolling_mean.
  rewrite bool_decide_eq_false_2 by lia.
  by rewrite bool_decide_eq_false_2 by lia.
Qed.

Lemma rolling_mean_raise w xs :
  w < 0 →
  rolling_mean w xs =
    Raise (ValueError "window must be an integer 0 or greater").
Proof. intros Hw. unfold rolling_mean. by rewrite bool_decide_eq_true_2. Qed.

Lemma rolling_mean_overflow w xs :
  2 ^ 63 ≤ w → Z.of_nat (length xs) < 2 ^ 63 →
  rolling_mean w xs = Raise OverflowError.
Proof.
  intros Hw Hlen. unfold rolling_mean.
  rewrite bool_decide_eq_false_2 by lia.
  by rewrite bool_decide_eq_true_2.
Qed.

Lemma rolling_mean_inv w xs ys :
  rolling_mean w xs = Ok ys →
  (0 ≤ w ∧ (w < 2 ^ 63 ∨ 2 ^ 63 ≤ Z.of_nat (length xs))) ∧
  ys = map (fun i => window_mean (Z.to_nat w) (window_at (Z.to_nat w) i xs))
           (seq 0 (length xs)).
Proof.
  unfold rolling_mean. case_bool_decide; [discriminate |].
  case_bool_decide; [discriminate |].
  intros [= <-]. split; [lia | done].
Qed.

Lemma rolling_mean_length w xs ys :
  rolling_mean w xs = Ok ys → length ys = length xs.
Proof.
  intros [_ ->]%rolling_mean_inv. by rewrite length_map, length_seq.
Qed.

Lemma rolling_mean_lookup w xs ys i :
  rolling_mean w xs = Ok ys → (i < length xs)%nat →
  ys !! i = Some (window_mean (Z.to_nat w) (window_at (Z.to_nat w) i xs)).
Proof.
  intros [_ ->]%rolling_mean_inv Hi.
  rewrite list_lookup_fmap, lookup_seq_lt by done. reflexivity.
Qed.

Lemma length_filter_le (f : float → bool) xs :
  (length (List.filter f xs) ≤ length xs)%nat.
Proof. induction xs as [|x xs IH]; simpl; [lia |]. destruct (f x); simpl; lia. Qed.

Lemma window_mean_short n win :
  (length win < n)%nat → window_mean n win = NaN.
Proof.
  intros Hlen. unfold window_mean.
  pose proof (length_filter_le is_finite win) as Hle.
  destruct (n <=? _)%nat eqn:E; [|done].
  apply Nat.leb_le in E. lia.
Qed.

Lemma window_at_length_le w i xs : (length (window_at w i xs) ≤ S i)%nat.
Proof. unfold window_at. rewrite length_drop, length_take. lia. Qed.

Lemma window_at_full w i xs :
  (w ≤ S i)%nat → (i < length xs)%nat →
  window_at w i xs = take w (drop (S i - w) xs) ∧
  length (window_at w i xs) = w.
Proof.
  intros Hw Hi. unfold window_at. split.
  - rewrite take_drop_commute. f_equal. f_equal. lia.
  - rewrite length_drop, length_take. lia.
Qed.

Lemma fsum_cons x xs : fsum (x :: xs) = fadd x (fsum xs).
Proof. reflexivity. Qed.

(** On a window without infinite cells, either every cell is an
    observation, or a NaN cell both lowers the count and poisons the sum. *)
Lemma window_obs_cases win :
  price_series win →
  List.filter is_finite win = win ∨
  ((length (List.filter is_finite win) < length win)%nat ∧ fsum win = NaN).
Proof.
  induction 1 as [|x win Hx Hwin IH]; [by left |].
  pose proof (length_filter_le is_finite win) as Hle.
  rewrite fsum_cons.
  destruct x as [| | |q]; try discriminate; cbn [List.filter is_finite length].
  - right. split; [lia | done].
  - destruct IH as [-> | [Hlt Hnan]]; [by left |].
    right. split; [lia |].
    rewrite Hnan. apply fadd_nan_r.
Qed.

Lemma window_mean_full n win :
  (0 < n)%nat → length win = n → price_series win →
  window_mean n win = arith_mean win.
Proof.
  intros Hn Hlen Hwin. unfold window_mean, arith_mean.
  destruct (window_obs_cases win Hwin) as [-> | [Hlt Hnan]].
  - rewrite Hlen, Nat.leb_refl. simpl.
    by rewrite (proj2 (Nat.ltb_lt 0 n)).
  - rewrite Hnan, fdiv_nan_l.
    rewrite (proj2 (Nat.leb_gt n _)); [done | lia].
Qed.

Lemma price_series_take n xs : price_series xs → price_series (take n xs).
Proof. apply Forall_take. Qed.

Lemma price_series_drop n xs : price_series xs → price_series (drop n xs).
Proof. apply Forall_drop. Qed.

Lemma window_mean_missing n win :
  (length win ≤ n)%nat → Exists (fun x => is_finite x = false) win →
  window_mean n win = NaN.
Proof.
  intros Hlen Hex. unfold window_mean.
  assert (length (List.filter is_finite win) < length win)%nat as Hlt.
  { clear Hlen. induction Hex as [x win Hx | x win _ IH].
    - pose proof (length_filter_le is_finite win).
      cbn [List.filter length]. rewrite Hx. lia.
    - cbn [List.filter length]. destruct (is_finite x); cbn [length]; lia. }
  rewrite (proj2 (Nat.leb_gt n _)); [done | lia].
Qed.

End rolling.

(** ** Running the methods *)

Lemma get_close_ok a df : data a = Some df → get_close a = (a, Ok (closes df)).
Proof. intros H. unfold get_close. by rewrite H. Qed.

Lemma get_close_none a :
  data a = None →
  get_close a = (a, Raise (TypeError "'NoneType' object is not subscriptable")).
Proof. intros H. unfold get_close. by rewrite H. Qed.

Lemma calculate_sma_ok w a df sma :
  data a = Some df → Pandas.rolling_mean w (closes df) = Ok sma →
  calculate_sma w a =
    (set_indicator ("SMA_" +:+ pretty w) (Floats sma) a, Ok sma).
Proof.
  intros Hd Hr. unfold calculate_sma, mbind.
  rewrite (get_close_ok a df Hd). unfold lift. by rewrite Hr.
Qed.

Lemma calculate_sma_raise w a df e :
  data a = Some df → Pandas.rolling_mean w (closes df) = Raise e →
  calculate_sma w a = (a, Raise e).
Proof.
  intros Hd Hr. unfold calculate_sma, mbind.
  rewrite (get_close_ok a df Hd). unfold lift. by rewrite Hr.
Qed.

Lemma calculate_ema_ok w a df ema :
  data a = Some df → Pandas.ewm_mean w (closes df) = Ok ema →
  calculate_ema w a =
    (set_indicator ("EMA_" +:+ pretty w) (Floats ema) a, Ok ema).
Proof.
  intros Hd Hr. unfold calculate_ema, mbind.
  rewrite (get_close_ok a df Hd). unfold lift. by rewrite Hr.
Qed.

Lemma calculate_ema_raise w a df e :
  data a = Some df → Pandas.ewm_mean w (closes df) = Raise e →
  calculate_ema w a = (a, Raise e).
Proof.
  intros Hd Hr. unfold calculate_ema, mbind.
  rewrite (get_close_ok a df Hd). unfold lift. by rewrite Hr.
Qed.

Lemma calculate_rsi_ok p a df rsi :
  data a = Some df → rsi_series p (closes df) = Ok rsi →
  calculate_rsi p a = (set_indicator "RSI" (Floats rsi) a, Ok rsi).
Proof.
  intros Hd Hr. unfold calculate_rsi, mbind.
  rewrite (get_close_ok a df Hd). unfold lift. by rewrite Hr.
Qed.

Lemma calculate_rsi_raise p a df e :
  data a = Some df → rsi_series p (closes df) = Raise e →
  calculate_rsi p a = (a, Raise e).
Proof.
  intros Hd Hr. unfold calculate_rsi, mbind.
  rewrite (get_close_ok a df Hd). unfold lift. by rewrite Hr.
Qed.

Lemma calculate_macd_ok f s g a df macd sig hist :
  data a = Some df → macd_series f s g (closes df) = Ok (macd, sig, hist) →
  calculate_macd f s g a =
    (set_indicator "Histogram" (Floats hist)
       (set_indicator "Signal" (Floats sig)
          (set_indicator "MACD" (Floats macd) a)),
     Ok (macd, sig, hist)).
Proof.
  intros Hd Hr. unfold calculate_macd, mbind.
  rewrite (get_close_ok a df Hd). unfold lift. by rewrite Hr.
Qed.

Lemma calculate_macd_raise f s g a df e :
  data a = Some df → macd_series f s g (closes df) = Raise e →
  calculate_macd f s g a = (a, Raise e).
Proof.
  intros Hd Hr. unfold calculate_macd, mbind.
  rewrite (get_close_ok a df Hd). unfold lift. by rewrite Hr.
Qed.

Lemma length_closes df : length (closes df) = length df.
Proof. apply length_map. Qed.


Lemma length_ramp start n : length (ramp start n) = n.
Proof. unfold ramp. by rewrite length_map, length_seq. Qed.

Lemma closes_frame_of cs : closes (frame_of cs) = cs.
Proof.
  unfold closes, frame_of. apply list_eq. intros i.
  rewrite list_lookup_fmap, list_lookup_imap.
  by destruct (cs !! i).
Qed.

(** ** Simple moving average *)

(** C1 (as amended).  For a window [1 <= W < 2^63] the series returned
    (and stored under [SMA_W]) by [calculate_sma W] has one cell per row; it
    is NaN at every row [i < W-1]; at every row [i >= W-1] it is the
    arithmetic mean of the closes of rows [i-W+1 .. i] when none of these
    closes is infinite, and NaN when one of them is infinite. *)
Theorem sma_is_windowed_arithmetic_mean (window : Z) (a : analyzer)
    (df : DataFrame) :
  1 ≤ window → window < 2 ^ 63 → data a = Some df →
  ∃ sma,
    calculate_sma window a =
      (set_indicator ("SMA_" +:+ pretty window) (Floats sma) a, Ok sma) ∧
    length sma = length df ∧
    ∀ i, (i < length df)%nat →
      (Z.of_nat i < window - 1 → sma !! i = Some NaN) ∧
      (window - 1 ≤ Z.of_nat i →
       (price_series (take (Z.to_nat window)
                           (drop (S i - Z.to_nat window) (closes df))) →
        sma !! i =
          Some (arith_mean (take (Z.to_nat window)
                                 (drop (S i - Z.to_nat window) (closes df))))) ∧
       (Exists (fun x => is_inf x = true)
               (take (Z.to_nat window)
                     (drop (S i - Z.to_nat window) (closes df))) →
        sma !! i = Some NaN)).
Proof.
  intros Hw Hfit Hd.
  destruct (Pandas.rolling_mean window (closes df)) as [sma|e] eqn:Hr.
  2:{ rewrite rolling_mean_ok in Hr by lia. discriminate. }
  exists sma. split; [by apply calculate_sma_ok with df |].
  assert (length (closes df) = length df) as Hlen
    by (unfold closes; apply length_map).
  split; [by rewrite (rolling_mean_length _ _ _ Hr) |].
  intros i Hi.
  rewrite (rolling_mean_lookup _ _ _ i Hr) by lia.
  split.
  - intros Hrange. f_equal. apply window_mean_short.
    pose proof (window_at_length_le (Z.to_nat window) i (closes df)). lia.
  - intros Hrange.
    destruct (window_at_full (Z.to_nat window) i (closes df)) as [Heq Hfull];
      [lia | lia |].
    rewrite <- Heq. split.
    + intros Hprice. f_equal. apply window_mean_full; [lia | done | done].
    + intros Hinf. f_equal. apply window_mean_missing; [lia |].
      eapply Exists_impl; [exact Hinf |]. by intros [| | |q].
Qed.

Lemma sma_is_windowed_arithmetic_mean_witness :
  ∃ sma,
    calculate_sma 5 (session "stock" (ramp 10 11)) =
      (set_indicator ("SMA_" +:+ pretty 5) (Floats sma)
         (session "stock" (ramp 10 11)), Ok sma) ∧
    length sma = length (frame_of (ramp 10 11)) ∧
    ∀ i, (i < length (frame_of (ramp 10 11)))%nat →
      (Z.of_nat i < 5 - 1 → sma !! i = Some NaN) ∧
      (5 - 1 ≤ Z.of_nat i →
       (price_series
          (take (Z.to_nat 5)
                (drop (S i - Z.to_nat 5) (closes (frame_of (ramp 10 11))))) →
        sma !! i =
          Some (arith_mean
                  (take (Z.to_nat 5)
                        (drop (S i - Z.to_nat 5)
                              (closes (frame_of (ramp 10 11))))))) ∧
       (Exists (fun x => is_inf x = true)
               (take (Z.to_nat 5)
                     (drop (S i - Z.to_nat 5)
                           (closes (frame_of (ramp 10 11))))) →
        sma !! i = Some NaN)).
Proof.
  apply (sma_is_windowed_arithmetic_mean 5 (session "stock" (ramp 10 11))
           (frame_of (ramp 10 11))).
  - lia.
  - lia.
  - reflexivity.
Defined.

(** With an infinite close in the window the SMA cell is NaN, not the
    arithmetic mean of the window (which is infinite); and a window of
    [2^63] raises [OverflowError] and stores nothing. *)
Lemma sma_infinite_close_counterexample :
  ¬ (∀ sma i,
       snd (calculate_sma 1 (session "stock" [PInf; Fz 1])) = Ok sma →
       (i < 2)%nat →
       sma !! i =
         Some (arith_mean (take (Z.to_nat 1)
                                (drop (S i - Z.to_nat 1) [PInf; Fz 1])))) ∧
  snd (calculate_sma 1 (session "stock" [PInf; Fz 1])) = Ok [NaN; Fz 1] ∧
  arith_mean [PInf] = PInf ∧
  calculate_sma (2 ^ 63) (session "stock" (ramp 10 11)) =
    (session "stock" (ramp 10 11), Raise OverflowError).
Proof.
  assert (snd (calculate_sma 1 (session "stock" [PInf; Fz 1])) =
          Ok [NaN; Fz 1]) as Hrun.
  { rewrite (calculate_sma_ok 1 _ (frame_of [PInf; Fz 1]) [NaN; Fz 1]);
      [done | done |].
    rewrite closes_frame_of, rolling_mean_ok by (cbn; lia).
    f_equal. apply floats_eqb_eq. by vm_compute. }
  split; [|split; [exact Hrun |split; [reflexivity |]]].
  - intros H. specialize (H _ 0%nat Hrun ltac:(lia)). discriminate.
  - apply calculate_sma_raise with (frame_of (ramp 10 11)); [done |].
    apply rolling_mean_overflow; [lia |].
    rewrite closes_frame_of, length_ramp. lia.
Qed.

(** The fixture of the specification: closes 10..20, window 5. *)
Example sma_fixture :
  snd (calculate_sma 5 (session "stock" (ramp 10 11))) =
    Ok (replicate 4 NaN ++ map Fz [12; 13; 14; 15; 16; 17; 18]).
Proof.
  destruct (calculate_sma 5 (session "stock" (ramp 10 11)))
    as [a' [sma|e]] eqn:E.
  - cbn [snd]. f_equal. apply floats_eqb_eq.
    apply (f_equal snd) in E. cbn [snd] in E.
    revert E. vm_compute. by intros [= <-].
  - apply (f_equal snd) in E. vm_compute in E. discriminate.
Qed.

(** ** Lengths of the intermediate series *)

Lemma length_diff xs : length (Pandas.diff xs) = length xs.
Proof.
  destruct xs as [|x rest]; [done |]. simpl.
  rewrite length_zip_with. simpl. f_equal. lia.
Qed.

Lemma length_where_ c o xs : length (Pandas.where_ c o xs) = length xs.
Proof. apply length_map. Qed.

Lemma length_rsi_gain_raw xs : length (rsi_gain_raw xs) = length xs.
Proof. unfold rsi_gain_raw, rsi_delta. by rewrite length_where_, length_diff. Qed.

Lemma length_rsi_loss_raw xs : length (rsi_loss_raw xs) = length xs.
Proof.
  unfold rsi_loss_raw, rsi_delta.
  by rewrite length_map, length_where_, length_diff.
Qed.

Lemma length_rsi_of gain loss :
  length loss = length gain → length (rsi_of gain loss) = length gain.
Proof.
  intros H. unfold rsi_of. rewrite length_map, length_zip_with. lia.
Qed.

Lemma rsi_series_inv p xs rsi :
  rsi_series p xs = Ok rsi →
  ∃ gain loss,
    rsi_gain p xs = Ok gain ∧ rsi_loss p xs = Ok loss ∧
    rsi = rsi_of gain loss ∧
    length gain = length xs ∧ length loss = length xs.
Proof.
  unfold rsi_series, rbind.
  destruct (rsi_gain p xs) as [gain|] eqn:Hg; [|discriminate].
  destruct (rsi_loss p xs) as [loss|] eqn:Hl; [|discriminate].
  intros [= <-]. exists gain, loss. repeat split; try done.
  - apply rolling_mean_length in Hg.
    by rewrite Hg, length_rsi_gain_raw.
  - apply rolling_mean_length in Hl. by rewrite Hl, length_rsi_loss_raw.
Qed.

Lemma rsi_series_ok p xs :
  0 ≤ p → p < 2 ^ 63 ∨ 2 ^ 63 ≤ Z.of_nat (length xs) →
  ∃ rsi, rsi_series p xs = Ok rsi ∧ length rsi = length xs.
Proof.
  intros Hp Hfit. unfold rsi_series, rsi_gain, rsi_loss.
  rewrite !rolling_mean_ok
    by (by rewrite ?length_rsi_gain_raw, ?length_rsi_loss_raw).
  simpl.
  eexists. split; [done |].
  rewrite length_rsi_of; rewrite !length_map, !length_seq;
    by rewrite ?length_rsi_gain_raw, ?length_rsi_loss_raw.
Qed.

Lemma rsi_series_overflow p xs :
  2 ^ 63 ≤ p → Z.of_nat (length xs) < 2 ^ 63 →
  rsi_series p xs = Raise OverflowError.
Proof.
  intros Hp Hlen. unfold rsi_series, rsi_gain.
  by rewrite rolling_mean_overflow by (by rewrite ?length_rsi_gain_raw).
Qed.

Lemma rsi_series_raise p xs :
  p < 0 →
  rsi_series p xs = Raise (ValueError "window must be an integer 0 or greater").
Proof.
  intros Hp. unfold rsi_series, rsi_gain. by rewrite rolling_mean_raise.
Qed.

Lemma rsi_series_length p xs rsi :
  rsi_series p xs = Ok rsi → length rsi = length xs.
Proof.
  intros (gain & loss & _ & _ & -> & Hg & Hl)%rsi_series_inv.
  rewrite length_rsi_of; congruence.
Qed.

(** ** Trend classification *)

Lemma trend_body_ok s l r i t si li ri :
  s !! i = Some si → l !! i = Some li → r !! i = Some ri →
  trend_body s l r i t =
    Ok (match classify si li ri with
        | Neutral => t
        | lab => <[i := lab]> t
        end).
Proof.
  intros Hs Hl Hr. unfold trend_body, Pandas.iloc, classify.
  rewrite Hs, Hl, Hr. cbn [rbind].
  destruct (fgt si li), (fgt ri (Fz 50)); cbn [rbind andb];
    destruct (flt si li), (flt ri (Fz 50)); reflexivity.
Qed.

Lemma trend_loop_seq s l r N :
  length s = N → length l = N → length r = N →
  ∀ n k t, (k + n ≤ N)%nat → length t = N →
    ∃ t', trend_loop s l r (seq k n) t = Ok t' ∧ length t' = N ∧
      (∀ j, (j < k ∨ k + n ≤ j)%nat → t' !! j = t !! j) ∧
      (∀ j sj lj rj, (k ≤ j < k + n)%nat →
         s !! j = Some sj → l !! j = Some lj → r !! j = Some rj →
         t !! j = Some Neutral → t' !! j = Some (classify sj lj rj)).
Proof.
  intros Hs Hl Hr. induction n as [|n IH]; intros k t Hk Ht.
  - exists t. split; [done |]. split; [done |]. split; [done |].
    intros; lia.
  - destruct (lookup_lt_is_Some_2 s k) as [sk Hsk]; [lia |].
    destruct (lookup_lt_is_Some_2 l k) as [lk Hlk]; [lia |].
    destruct (lookup_lt_is_Some_2 r k) as [rk Hrk]; [lia |].
    cbn [seq trend_loop]. rewrite (trend_body_ok s l r k t sk lk rk) by done.
    cbn [rbind].
    set (t1 := match classify sk lk rk with
               | Neutral => t | lab => <[k := lab]> t end).
    assert (length t1 = N) as Ht1.
    { subst t1. destruct (classify sk lk rk); by rewrite ?length_insert. }
    assert (∀ j, j ≠ k → t1 !! j = t !! j) as Hother.
    { intros j Hj. subst t1.
      destruct (classify sk lk rk); by rewrite ?list_lookup_insert_ne. }
    assert (t !! k = Some Neutral → t1 !! k = Some (classify sk lk rk)) as Hk1.
    { intros Hn. subst t1.
      destruct (classify sk lk rk);
        rewrite ?list_lookup_insert_eq by lia; done. }
    destruct (IH (S k) t1) as (t' & Hrun & Hlen & Hout & Hin); [lia | done |].
    exists t'. split; [done |]. split; [done |]. split.
    + intros j Hj. rewrite Hout by lia. apply Hother. lia.
    + intros j sj lj rj Hj Hsj Hlj Hrj Hn.
      destruct (decide (j = k)) as [-> | Hne].
      * rewrite Hout by lia. simplify_eq. by apply Hk1.
      * apply Hin; try done; [lia |]. by rewrite Hother.
Qed.

Lemma data_set_indicator k s a : data (set_indicator k s a) = data a.
Proof. reflexivity. Qed.

Lemma indicators_set_indicator k s a :
  indicators (set_indicator k s a) = <[k := s]> (indicators a).
Proof. reflexivity. Qed.

(** What one call of [detect_trend] does on a loaded session. *)
Lemma detect_trend_run a df :
  data a = Some df →
  ∃ sma20 sma50 rsi trend,
    Pandas.rolling_mean 20 (closes df) = Ok sma20 ∧
    Pandas.rolling_mean 50 (closes df) = Ok sma50 ∧
    rsi_series 14 (closes df) = Ok rsi ∧
    detect_trend a =
      (set_indicator "Trend" (Labels trend)
         (set_indicator "RSI" (Floats rsi)
            (set_indicator "SMA_50" (Floats sma50)
               (set_indicator "SMA_20" (Floats sma20) a))),
       Ok trend) ∧
    length trend = length df ∧
    ∀ i, (i < length df)%nat →
      ∃ s l r, sma20 !! i = Some s ∧ sma50 !! i = Some l ∧ rsi !! i = Some r ∧
               trend !! i = Some (classify s l r).
Proof.
  intros Hd.
  destruct (Pandas.rolling_mean 20 (closes df)) as [sma20|] eqn:H20;
    [|rewrite rolling_mean_ok in H20 by lia; discriminate].
  destruct (Pandas.rolling_mean 50 (closes df)) as [sma50|] eqn:H50;
    [|rewrite rolling_mean_ok in H50 by lia; discriminate].
  destruct (rsi_series_ok 14 (closes df)) as (rsi & Hrsi & Hrlen); [lia | lia |].
  pose proof (rolling_mean_length _ _ _ H20) as L20.
  pose proof (rolling_mean_length _ _ _ H50) as L50.
  rewrite length_closes in L20, L50, Hrlen.
  destruct (trend_loop_seq sma20 sma50 rsi (length df) L20 L50 Hrlen
              (length df) 0%nat (replicate (length df) Neutral))
    as (trend & Hloop & Hlen & _ & Hin); [lia | apply length_replicate |].
  exists sma20, sma50, rsi, trend. repeat split; try done.
  - unfold detect_trend, mbind.
    rewrite (calculate_sma_ok 20 a df sma20 Hd H20).
    rewrite (calculate_sma_ok 50 _ df sma50
               (eq_trans (data_set_indicator _ _ _) Hd) H50).
    rewrite (calculate_rsi_ok 14 _ df rsi) by done.
    unfold data_length. cbn [data set_indicator]. rewrite Hd.
    unfold lift. rewrite Hloop. reflexivity.
  - intros i Hi.
    destruct (lookup_lt_is_Some_2 sma20 i) as [si Hsi]; [lia |].
    destruct (lookup_lt_is_Some_2 sma50 i) as [li Hli]; [lia |].
    destruct (lookup_lt_is_Some_2 rsi i) as [ri Hri]; [lia |].
    exists si, li, ri. repeat split; try done.
    apply Hin; try done; [lia |].
    by apply lookup_replicate_2.
Qed.

Lemma classify_nan s l r :
  is_nan s = true ∨ is_nan l = true ∨ is_nan r = true →
  classify s l r = Neutral.
Proof.
  unfold classify. intros [H | [H | H]].
  - destruct s; try discriminate. by rewrite fgt_nan_l, flt_nan_l.
  - destruct l; try discriminate. by rewrite fgt_nan_r, flt_nan_r.
  - destruct r; try discriminate.
    rewrite fgt_nan_l, flt_nan_l. by rewrite !andb_false_r.
Qed.

(** C2. On every loaded session the label of each row is given by the
    first-match rule applied to the SMA(20), SMA(50) and RSI(14) cells of
    that row (Bullish if SMA20 > SMA50 and RSI > 50; else Bearish if
    SMA20 < SMA50 and RSI < 50; else Neutral); a row with a NaN operand is
    Neutral; hence every row [i < 49] is Neutral whatever the prices. *)
Theorem trend_first_match_and_warmup (a : analyzer) (df : DataFrame) :
  data a = Some df →
  ∃ sma20 sma50 rsi trend a',
    snd (calculate_sma 20 a) = Ok sma20 ∧
    snd (calculate_sma 50 a) = Ok sma50 ∧
    snd (calculate_rsi 14 a) = Ok rsi ∧
    detect_trend a = (a', Ok trend) ∧
    indicators a' !! "Trend" = Some (Labels trend) ∧
    length trend = length df ∧
    (∀ i, (i < length df)%nat →
       ∃ s l r, sma20 !! i = Some s ∧ sma50 !! i = Some l ∧
                rsi !! i = Some r ∧ trend !! i = Some (classify s l r)) ∧
    (∀ s l r, is_nan s = true ∨ is_nan l = true ∨ is_nan r = true →
              classify s l r = Neutral) ∧
    (∀ i, (i < 49)%nat → (i < length df)%nat → trend !! i = Some Neutral).
Proof.
  intros Hd.
  destruct (detect_trend_run a df Hd)
    as (sma20 & sma50 & rsi & trend & H20 & H50 & Hrsi & Hrun & Hlen & Hrule).
  exists sma20, sma50, rsi, trend. eexists.
  split; [by rewrite (calculate_sma_ok 20 a df sma20) |].
  split; [by rewrite (calculate_sma_ok 50 a df sma50) |].
  split; [by rewrite (calculate_rsi_ok 14 a df rsi) |].
  split; [exact Hrun |].
  split; [cbn [indicators set_indicator]; apply lookup_insert_eq |].
  split; [done |].
  split; [done |].
  split; [apply classify_nan |].
  intros i Hi Hin.
  destruct (Hrule i Hin) as (s & l & r & _ & Hl & _ & ->).
  f_equal. apply classify_nan. right; left.
  rewrite (rolling_mean_lookup _ _ _ i H50) in Hl
    by (rewrite length_closes; lia).
  injection Hl as <-.
  rewrite window_mean_short; [done |].
  pose proof (window_at_length_le (Z.to_nat 50) i (closes df)). lia.
Qed.

Lemma trend_first_match_and_warmup_witness :
  ∃ sma20 sma50 rsi trend a',
    snd (calculate_sma 20 (session "stock" (ramp 10 60))) = Ok sma20 ∧
    snd (calculate_sma 50 (session "stock" (ramp 10 60))) = Ok sma50 ∧
    snd (calculate_rsi 14 (session "stock" (ramp 10 60))) = Ok rsi ∧
    detect_trend (session "stock" (ramp 10 60)) = (a', Ok trend) ∧
    indicators a' !! "Trend" = Some (Labels trend) ∧
    length trend = length (frame_of (ramp 10 60)) ∧
    (∀ i, (i < length (frame_of (ramp 10 60)))%nat →
       ∃ s l r, sma20 !! i = Some s ∧ sma50 !! i = Some l ∧
                rsi !! i = Some r ∧ trend !! i = Some (classify s l r)) ∧
    (∀ s l r, is_nan s = true ∨ is_nan l = true ∨ is_nan r = true →
              classify s l r = Neutral) ∧
    (∀ i, (i < 49)%nat → (i < length (frame_of (ramp 10 60)))%nat →
          trend !! i = Some Neutral).
Proof.
  apply (trend_first_match_and_warmup (session "stock" (ramp 10 60))
           (frame_of (ramp 10 60))).
  reflexivity.
Defined.

(** ** Rational arithmetic behind the RSI formula *)

Section rational.
Local Open Scope Qc_scope.

Lemma Qc_pos_ne_0 (x : Qc) : 0 < x → x ≠ 0.
Proof. intros H E. subst. by apply (Qclt_not_eq 0 0). Qed.

Lemma Qcdiv_nonneg (g l : Qc) : 0 ≤ g → 0 < l → 0 ≤ g / l.
Proof.
  intros Hg Hl. unfold Qcdiv.
  rewrite <-(Qcmult_0_l (/ l)).
  apply Qcmult_le_mono_nonneg_r; [|done].
  apply Qclt_le_weak. by apply Qcinv_pos.
Qed.

Lemma Qcdiv_pos (g l : Qc) : 0 < g → 0 < l → 0 < g / l.
Proof.
  intros Hg Hl. unfold Qcdiv. apply Qcmult_pos_pos; [done |].
  by apply Qcinv_pos.
Qed.

Lemma Qcinv_le_1 (t : Qc) : 1 ≤ t → / t ≤ 1.
Proof.
  intros Ht.
  assert (0 < t) as Hpos by (by apply Qclt_le_trans with 1).
  assert (/ t * 1 ≤ / t * t) as H.
  { apply Qcmult_le_mono_nonneg_l; [|done].
    apply Qclt_le_weak. by apply Qcinv_pos. }
  rewrite Qcmult_1_r, Qcmult_inv_l in H by (by apply Qc_pos_ne_0).
  exact H.
Qed.

(** [c - c / (1 + g / l)] stays between [0] and [c]. *)
Lemma rsi_formula_bounds (c g l : Qc) :
  0 ≤ c → 0 ≤ g → 0 < l →
  1 + g / l ≠ 0 ∧
  0 ≤ c + - (c / (1 + g / l)) ∧ c + - (c / (1 + g / l)) ≤ c.
Proof.
  intros Hc Hg Hl.
  pose proof (Qcdiv_nonneg g l Hg Hl) as Hrs.
  assert (1 ≤ 1 + g / l) as Ht.
  { apply (Qcplus_le_mono_l 0 (g / l) 1) in Hrs.
    by rewrite Qcplus_0_r in Hrs. }
  assert (0 < 1 + g / l) as Hpos by (by apply Qclt_le_trans with 1).
  assert (0 ≤ c / (1 + g / l)) as Hlo.
  { unfold Qcdiv. rewrite <-(Qcmult_0_l (/ (1 + g * / l))).
    apply Qcmult_le_mono_nonneg_r; [|done].
    apply Qclt_le_weak. by apply Qcinv_pos. }
  assert (c / (1 + g / l) ≤ c) as Hhi.
  { pose proof (Qcmult_le_mono_nonneg_l _ _ c Hc (Qcinv_le_1 _ Ht)) as H.
    by rewrite Qcmult_1_r in H. }
  split; [by apply Qc_pos_ne_0 |]. split.
  - exact (proj1 (Qcle_minus_iff _ _) Hhi).
  - apply Qcopp_le_compat in Hlo.
    apply (Qcplus_le_mono_l _ _ c) in Hlo.
    by rewrite Qcplus_0_r in Hlo.
Qed.

End rational.

(** ** Relative strength index *)

Lemma rsi_gain_raw_nonneg xs : Forall nonneg_cell (rsi_gain_raw xs).
Proof.
  unfold rsi_gain_raw, Pandas.where_. apply Forall_fmap, Forall_true.
  intros d. unfold compose. cbn beta. destruct (fgt d (Fz 0)) eqn:E.
  - destruct d as [| | |q]; try done.
    apply flt_fin in E. rewrite Qz_0 in E. by apply Qclt_le_weak.
  - unfold Fz, nonneg_cell. by rewrite Qz_0.
Qed.

Lemma rsi_loss_raw_nonneg xs : Forall nonneg_cell (rsi_loss_raw xs).
Proof.
  unfold rsi_loss_raw, Pandas.where_. rewrite <-list_fmap_compose.
  apply Forall_fmap, Forall_true.
  intros d. unfold compose. cbn beta. destruct (flt d (Fz 0)) eqn:E.
  - destruct d as [| | |q]; try done.
    apply flt_fin in E. rewrite Qz_0 in E.
    apply Qclt_le_weak, Qcopp_le_compat in E. exact E.
  - unfold Fz, nonneg_cell, fopp. rewrite Qz_0. done.
Qed.

Lemma fsum_finite_nonneg xs :
  all_finite xs → Forall nonneg_cell xs →
  ∃ s, Pandas.fsum xs = Fin s ∧ (0 ≤ s)%Qc.
Proof.
  induction 1 as [|x xs Hx Hxs IH]; intros Hnn.
  - exists (Qz 0). split; [done |]. rewrite Qz_0. done.
  - apply Forall_cons in Hnn as [Hx0 Hnn].
    destruct (IH Hnn) as (s & Hs & Hs0).
    destruct x as [| | |q]; try discriminate.
    exists (q + s)%Qc. split.
    + rewrite fsum_cons, Hs. done.
    + by apply Qcplus_nonneg_nonneg.
Qed.

Lemma all_finite_filter xs : all_finite (List.filter is_finite xs).
Proof.
  unfold all_finite. apply Forall_forall. intros x Hx.
  apply list_elem_of_In, filter_In in Hx. tauto.
Qed.

Lemma Forall_list_filter {A} (P : A → Prop) (f : A → bool) xs :
  Forall P xs → Forall P (List.filter f xs).
Proof.
  induction 1 as [|x xs Hx Hxs IH]; simpl; [constructor |].
  destruct (f x); [by constructor | done].
Qed.

Lemma window_mean_nonneg n win g :
  Forall nonneg_cell win → Pandas.window_mean n win = Fin g → (0 ≤ g)%Qc.
Proof.
  intros Hnn. unfold Pandas.window_mean.
  destruct (_ && _) eqn:E; [|discriminate].
  apply andb_prop in E as [_ Hpos%Nat.ltb_lt].
  destruct (fsum_finite_nonneg (List.filter is_finite win)) as (s & -> & Hs);
    [apply all_finite_filter | by apply Forall_list_filter |].
  unfold Fz. rewrite fdiv_fin by (apply Qz_ne_0; lia).
  intros [= <-]. apply Qcdiv_nonneg; [done |]. apply Qz_pos. lia.
Qed.

Lemma rolling_mean_nonneg w xs ys i g :
  Forall nonneg_cell xs → Pandas.rolling_mean w xs = Ok ys →
  ys !! i = Some (Fin g) → (0 ≤ g)%Qc.
Proof.
  intros Hnn Hr Hi.
  assert (i < length xs)%nat as Hlt.
  { rewrite <-(rolling_mean_length _ _ _ Hr). by apply lookup_lt_Some in Hi. }
  rewrite (rolling_mean_lookup _ _ _ i Hr Hlt) in Hi. injection Hi as Hi.
  apply (window_mean_nonneg _ _ _ (Forall_drop _ _ _ (Forall_take _ _ _ Hnn)) Hi).
Qed.

Lemma rsi_of_lookup gain loss i g l :
  gain !! i = Some g → loss !! i = Some l →
  rsi_of gain loss !! i = Some (rsi_cell g l).
Proof.
  intros Hg Hl. unfold rsi_of.
  rewrite list_lookup_fmap, lookup_zip_with, Hg. simpl. by rewrite Hl.
Qed.

Lemma rsi_cell_range g l :
  (0 ≤ g)%Qc → (0 < l)%Qc →
  ∃ r, rsi_cell (Fin g) (Fin l) = Fin r ∧ (0 ≤ r)%Qc ∧ (r ≤ Qz 100)%Qc.
Proof.
  intros Hg Hl.
  destruct (rsi_formula_bounds (Qz 100) g l) as (Hne & Hlo & Hhi);
    [by apply Qz_nonneg | done | done |].
  exists (Qz 100 + - (Qz 100 / (1 + g / l)))%Qc. split; [|done].
  unfold rsi_cell, Fz.
  rewrite fdiv_fin by (by apply Qc_pos_ne_0).
  cbn [fadd]. rewrite Qz_1. by rewrite fdiv_fin.
Qed.

Lemma rsi_cell_saturates g :
  (0 < g)%Qc → rsi_cell (Fin g) (Fin 0%Qc) = Fz 100.
Proof.
  intros Hg. unfold rsi_cell, Fz, fdiv at 2.
  rewrite bool_decide_eq_true_2 by done.
  unfold signed_inf. rewrite bool_decide_eq_true_2 by done.
  cbn. unfold Fz. f_equal. ring.
Qed.


(** ** Exponential moving average *)

Section ewm.
Import Pandas.
Local Open Scope Qc_scope.

Lemma Qz_add n m : Qz (n + m) = Qz n + Qz m.
Proof. apply Z2Qc_inj_add. Qed.

Lemma alpha_of_span_eq (span : Z) :
  (1 ≤ span)%Z → alpha_of_span span = 2 / (Qz span + 1).
Proof.
  intros Hs. unfold alpha_of_span.
  assert (Qz span + 1 ≠ 0) as Hne.
  { apply Qc_pos_ne_0. rewrite <-Qz_1, <-Qz_add. apply Qz_pos. lia. }
  field. split; [done |]. discriminate.
Qed.


Lemma prep_values_id xs : price_series xs → prep_values xs = xs.
Proof.
  induction 1 as [|x xs Hx _ IH]; [done |].
  unfold prep_values in *. cbn [map]. by rewrite Hx, IH.
Qed.

Lemma all_finite_price xs : all_finite xs → price_series xs.
Proof. intros H. eapply Forall_impl; [exact H |]. by intros [| | |q]. Qed.


Lemma length_prep_values xs : length (prep_values xs) = length xs.
Proof. apply length_map. Qed.


Lemma ewm_mean_ok span x0 rest :
  (1 ≤ span)%Z → price_series (x0 :: rest) →
  ewm_mean span (x0 :: rest) =
    Ok (x0 :: ewm_loop (alpha_of_span span)
                (x0, 1, if is_nan x0 then 0%nat else 1%nat) rest).
Proof.
  intros Hs Hp. unfold ewm_mean. rewrite bool_decide_eq_false_2 by lia.
  rewrite (prep_values_id _ Hp). by destruct x0.
Qed.


Lemma ewm_mean_raise span xs :
  (span < 1)%Z →
  ewm_mean span xs = Raise (ValueError "span must satisfy: span >= 1").
Proof. intros Hs. unfold ewm_mean. by rewrite bool_decide_eq_true_2. Qed.

Lemma length_ewm_loop alpha st xs :
  length (ewm_loop alpha st xs) = length xs.
Proof.
  revert st. induction xs as [|x xs IH]; intros st; simpl; [done |].
  by rewrite IH.
Qed.

Lemma ewm_mean_length span xs ys :
  ewm_mean span xs = Ok ys → length ys = length xs.
Proof.
  unfold ewm_mean. case_bool_decide; [discriminate |].
  rewrite <- (length_prep_values xs).
  destruct (prep_values xs) as [|x0 rest]; intros [= <-]; [done |].
  simpl. by rewrite length_ewm_loop.
Qed.

Lemma ewm_mean_is_ok span xs :
  (1 ≤ span)%Z → ∃ ys, ewm_mean span xs = Ok ys ∧ length ys = length xs.
Proof.
  intros Hs. destruct (ewm_mean span xs) as [ys|e] eqn:E.
  - exists ys. split; [done |]. by apply ewm_mean_length in E.
  - unfold ewm_mean in E. rewrite bool_decide_eq_false_2 in E by lia.
    by destruct (prep_values xs).
Qed.

End ewm.

Section ema.
Import Pandas.
Local Open Scope Qc_scope.

Lemma ema_rec_cons alpha prev x rest :
  ema_rec alpha prev (x :: rest) =
    ema_next alpha x prev :: ema_rec alpha (ema_next alpha x prev) rest.
Proof. reflexivity. Qed.

Lemma ewm_step_finite alpha w n c :
  ewm_step alpha (Fin w, 1, n) (Fin c) =
    (ema_next alpha (Fin c) (Fin w), 1, S n).
Proof.
  unfold ewm_step, ema_next. cbn [is_nan negb fmul fadd].
  assert (1 * (1 - alpha) + alpha = 1) as Hone by ring.
  unfold fne, feq. case_bool_decide as Hwc; cbn [negb].
  - subst c. do 2 f_equal. f_equal. ring.
  - rewrite fdiv_fin by (rewrite Hone; discriminate).
    do 2 f_equal. f_equal. rewrite Hone. field. discriminate.
Qed.

(** On finite inputs the exponentially weighted mean is the plain
    smoothing recurrence. *)
Lemma ewm_loop_finite alpha xs : ∀ w n,
  (1 ≤ n)%nat → all_finite xs →
  ewm_loop alpha (Fin w, 1, n) xs = ema_rec alpha (Fin w) xs.
Proof.
  induction xs as [|x xs IH]; intros w n Hn Hfin; [done |].
  apply Forall_cons in Hfin as [Hx Hxs].
  destruct x as [| | |c]; try discriminate.
  cbn [ewm_loop]. rewrite ewm_step_finite, ema_rec_cons.
  unfold ema_next at 1 2 3. cbn [fmul fadd ewm_out].
  f_equal. apply (IH _ (S n)); [lia | done].
Qed.



Lemma ewm_mean_finite span x0 rest :
  (1 ≤ span)%Z → all_finite (x0 :: rest) →
  ewm_mean span (x0 :: rest) =
    Ok (x0 :: ema_rec (alpha_of_span span) x0 rest).
Proof.
  intros Hs Hfin. rewrite ewm_mean_ok by (done || by apply all_finite_price).
  apply Forall_cons in Hfin as [Hx Hxs].
  destruct x0 as [| | |w]; try discriminate.
  cbn [is_nan]. by rewrite ewm_loop_finite.
Qed.

End ema.

(** Series with NaN gaps. *)
Section ewm_gaps.
Import Pandas.
Local Open Scope Qc_scope.
Variable alpha : Qc.
Hypothesis alpha_pos : 0 < alpha.
Hypothesis alpha_le_1 : alpha ≤ 1.











End ewm_gaps.












(** ** MACD *)




Lemma macd_series_ok fast slow signal xs :
  1 ≤ fast → 1 ≤ slow → 1 ≤ signal →
  ∃ ema_fast ema_slow signal_line,
    Pandas.ewm_mean fast xs = Ok ema_fast ∧
    Pandas.ewm_mean slow xs = Ok ema_slow ∧
    Pandas.ewm_mean signal (zip_with fsub ema_fast ema_slow) = Ok signal_line ∧
    macd_series fast slow signal xs =
      Ok (zip_with fsub ema_fast ema_slow, signal_line,
          zip_with fsub (zip_with fsub ema_fast ema_slow) signal_line) ∧
    length ema_fast = length xs ∧ length ema_slow = length xs ∧
    length signal_line = length xs.
Proof.
  intros Hf Hs Hg.
  destruct (ewm_mean_is_ok fast xs Hf) as (ef & Hef & Lf).
  destruct (ewm_mean_is_ok slow xs Hs) as (es & Hes & Ls).
  destruct (ewm_mean_is_ok signal (zip_with fsub ef es) Hg) as (sg & Hsg & Lg).
  exists ef, es, sg. unfold macd_series. rewrite Hef, Hes. cbn [rbind].
  rewrite Hsg. cbn [rbind]. repeat split; try done.
  rewrite Lg, length_zip_with. lia.
Qed.




(** ** Series validation in [fetch_data] *)

(** C6. With zero rows from the data source, the stock path of
    [fetch_data] raises before any indicator is computed, while the crypto
    path accepts the empty frame: the run goes on and stores eight empty
    series. *)
Theorem zero_rows_rejected_on_stock_path_only (c : ascii) (sym : string)
    (hist : DataFrame) (end_date : Z) :
  (∃ a a',
     init (String c sym) "stock" "1d" = Ok a ∧
     run_analysis (mkFeed [] hist) end_date a =
       (a', Raise (ValueError
              "No data retrieved for the given symbol and date range")) ∧
     indicators a' = ∅) ∧
  (∃ a a',
     init (String c sym) "crypto" "1d" = Ok a ∧
     fetch_data (mkFeed hist []) end_date a = (set_data [] a, Ok tt) ∧
     run_analysis (mkFeed hist []) end_date a = (a', Ok tt) ∧
     data a' = Some [] ∧
     indicators a' =
       list_to_map
         [("SMA_20", Floats []); ("SMA_50", Floats []); ("EMA_20", Floats []);
          ("RSI", Floats []); ("MACD", Floats []); ("Signal", Floats []);
          ("Histogram", Floats []); ("Trend", Labels [])]).
Proof.
  split.
  - eexists _, _. split; [reflexivity |]. split; reflexivity.
  - eexists _, _. split; [reflexivity |]. split; [reflexivity |].
    split; [reflexivity |]. split; [reflexivity |].
    apply map_eq. intros k. vm_compute. reflexivity.
Qed.

(** ** Non-positive parameters *)


Lemma rsi_of_nan n : rsi_of (replicate n NaN) (replicate n NaN) = replicate n NaN.
Proof.
  unfold rsi_of. induction n as [|n IH]; [done |].
  simpl. f_equal. exact IH.
Qed.


Lemma macd_series_raise fast slow signal xs :
  fast ≤ 0 ∨ slow ≤ 0 ∨ signal ≤ 0 →
  macd_series fast slow signal xs =
    Raise (ValueError "span must satisfy: span >= 1").
Proof.
  intros H. unfold macd_series.
  destruct (decide (fast < 1)) as [Hf | Hf].
  { by rewrite ewm_mean_raise. }
  destruct (ewm_mean_is_ok fast xs) as (ef & -> & _); [lia |]. cbn [rbind].
  destruct (decide (slow < 1)) as [Hs | Hs].
  { by rewrite ewm_mean_raise. }
  destruct (ewm_mean_is_ok slow xs) as (es & -> & _); [lia |]. cbn [rbind].
  rewrite ewm_mean_raise by lia. reflexivity.
Qed.




(** ** What the classifier does to the mapping *)

Lemma compute_indicators_run a df :
  data a = Some df →
  ∃ sma20 sma50 ema20 rsi macd sig hist,
    Pandas.rolling_mean 20 (closes df) = Ok sma20 ∧
    Pandas.rolling_mean 50 (closes df) = Ok sma50 ∧
    rsi_series 14 (closes df) = Ok rsi ∧
    compute_indicators a =
      (set_indicator "Histogram" (Floats hist)
         (set_indicator "Signal" (Floats sig)
            (set_indicator "MACD" (Floats macd)
               (set_indicator "RSI" (Floats rsi)
                  (set_indicator "EMA_20" (Floats ema20)
                     (set_indicator "SMA_50" (Floats sma50)
                        (set_indicator "SMA_20" (Floats sma20) a)))))),
       Ok tt).
Proof.
  intros Hd.
  destruct (Pandas.rolling_mean 20 (closes df)) as [sma20|] eqn:H20;
    [|rewrite rolling_mean_ok in H20 by lia; discriminate].
  destruct (Pandas.rolling_mean 50 (closes df)) as [sma50|] eqn:H50;
    [|rewrite rolling_mean_ok in H50 by lia; discriminate].
  destruct (ewm_mean_is_ok 20 (closes df)) as (ema20 & Hema & _); [lia |].
  destruct (rsi_series_ok 14 (closes df)) as (rsi & Hrsi & _); [lia | lia |].
  destruct (macd_series_ok 12 26 9 (closes df))
    as (ef & es & sg & _ & _ & _ & Hmacd & _); [lia | lia | lia |].
  eexists sma20, sma50, ema20, rsi, _, _, _.
  split; [done |]. split; [done |]. split; [done |].
  unfold compute_indicators, mbind.
  rewrite (calculate_sma_ok 20 a df sma20 Hd H20).
  rewrite (calculate_sma_ok 50 _ df sma50) by done.
  rewrite (calculate_ema_ok 20 _ df ema20) by done.
  rewrite (calculate_rsi_ok 14 _ df rsi) by done.
  erewrite calculate_macd_ok; [reflexivity | exact Hd | exact Hmacd].
Qed.

(** C8 (as amended).  [detect_trend] computes SMA(20), SMA(50) and RSI(14)
    again from the closes and writes them under [SMA_20], [SMA_50] and
    [RSI] before adding [Trend]; no other key is touched.  When the mapping
    already holds these three series for the same frame (as after the
    default indicator run), the rewritten entries are equal to the old ones
    and the mapping changes by the [Trend] entry only. *)
Theorem detect_trend_recomputes_its_inputs (a : analyzer) (df : DataFrame) :
  data a = Some df →
  ∃ sma20 sma50 rsi trend a',
    snd (calculate_sma 20 a) = Ok sma20 ∧
    snd (calculate_sma 50 a) = Ok sma50 ∧
    snd (calculate_rsi 14 a) = Ok rsi ∧
    detect_trend a = (a', Ok trend) ∧
    data a' = data a ∧
    indicators a' =
      <["Trend" := Labels trend]>
        (<["RSI" := Floats rsi]>
           (<["SMA_50" := Floats sma50]>
              (<["SMA_20" := Floats sma20]> (indicators a)))) ∧
    (∀ k, k ≠ "SMA_20" → k ≠ "SMA_50" → k ≠ "RSI" → k ≠ "Trend" →
          indicators a' !! k = indicators a !! k) ∧
    (indicators a !! "SMA_20" = Some (Floats sma20) →
     indicators a !! "SMA_50" = Some (Floats sma50) →
     indicators a !! "RSI" = Some (Floats rsi) →
     indicators a' = <["Trend" := Labels trend]> (indicators a)) ∧
    (∀ a1, fst (compute_indicators a) = a1 →
       ∃ trend1, snd (detect_trend a1) = Ok trend1 ∧
         indicators (fst (detect_trend a1)) =
           <["Trend" := Labels trend1]> (indicators a1)).
Proof.
  intros Hd.
  destruct (detect_trend_run a df Hd)
    as (sma20 & sma50 & rsi & trend & H20 & H50 & Hrsi & Hrun & _ & _).
  exists sma20, sma50, rsi, trend. eexists.
  split; [by rewrite (calculate_sma_ok 20 a df sma20) |].
  split; [by rewrite (calculate_sma_ok 50 a df sma50) |].
  split; [by rewrite (calculate_rsi_ok 14 a df rsi) |].
  split; [exact Hrun |].
  split; [reflexivity |].
  split; [reflexivity |].
  cbn [indicators set_indicator].
  split; [|split].
  - intros k H1 H2 H3 H4. by rewrite !lookup_insert_ne.
  - intros E20 E50 Ersi.
    rewrite (insert_id _ _ _ E20), (insert_id _ _ _ E50).
    by rewrite (insert_id _ _ _ Ersi).
  - intros a1 <-.
    destruct (compute_indicators_run a df Hd)
      as (s20 & s50 & e20 & r & m & sg & h & G20 & G50 & Grsi & ->).
    cbn [fst].
    destruct (detect_trend_run
                (set_indicator "Histogram" (Floats h)
                   (set_indicator "Signal" (Floats sg)
                      (set_indicator "MACD" (Floats m)
                         (set_indicator "RSI" (Floats r)
                            (set_indicator "EMA_20" (Floats e20)
                               (set_indicator "SMA_50" (Floats s50)
                                  (set_indicator "SMA_20" (Floats s20) a)))))))
                df Hd)
      as (t20 & t50 & tr & trend1 & K20 & K50 & Krsi & -> & _ & _).
    exists trend1. split; [reflexivity |].
    assert (t20 = s20) as -> by congruence.
    assert (t50 = s50) as -> by congruence.
    assert (tr = r) as -> by congruence.
    cbn [fst indicators set_indicator]. f_equal.
    rewrite (insert_id _ "SMA_20") by (by simplify_map_eq).
    rewrite (insert_id _ "SMA_50") by (by simplify_map_eq).
    rewrite (insert_id _ "RSI") by (by simplify_map_eq).
    reflexivity.
Qed.

Lemma detect_trend_recomputes_its_inputs_witness :
  ∃ sma20 sma50 rsi trend a',
    snd (calculate_sma 20 (session "stock" (ramp 10 60))) = Ok sma20 ∧
    snd (calculate_sma 50 (session "stock" (ramp 10 60))) = Ok sma50 ∧
    snd (calculate_rsi 14 (session "stock" (ramp 10 60))) = Ok rsi ∧
    detect_trend (session "stock" (ramp 10 60)) = (a', Ok trend) ∧
    data a' = data (session "stock" (ramp 10 60)) ∧
    indicators a' =
      <["Trend" := Labels trend]>
        (<["RSI" := Floats rsi]>
           (<["SMA_50" := Floats sma50]>
              (<["SMA_20" := Floats sma20]>
                 (indicators (session "stock" (ramp 10 60)))))) ∧
    (∀ k, k ≠ "SMA_20" → k ≠ "SMA_50" → k ≠ "RSI" → k ≠ "Trend" →
          indicators a' !! k =
            indicators (session "stock" (ramp 10 60)) !! k) ∧
    (indicators (session "stock" (ramp 10 60)) !! "SMA_20"
       = Some (Floats sma20) →
     indicators (session "stock" (ramp 10 60)) !! "SMA_50"
       = Some (Floats sma50) →
     indicators (session "stock" (ramp 10 60)) !! "RSI" = Some (Floats rsi) →
     indicators a' =
       <["Trend" := Labels trend]>
         (indicators (session "stock" (ramp 10 60)))) ∧
    (∀ a1, fst (compute_indicators (session "stock" (ramp 10 60))) = a1 →
       ∃ trend1, snd (detect_trend a1) = Ok trend1 ∧
         indicators (fst (detect_trend a1)) =
           <["Trend" := Labels trend1]> (indicators a1)).
Proof.
  apply (detect_trend_recomputes_its_inputs (session "stock" (ramp 10 60))
           (frame_of (ramp 10 60))).
  reflexivity.
Defined.

(** After [calculate_rsi(7)] the mapping holds RSI(7) under [RSI];
    [detect_trend] replaces it by RSI(14) and also adds [SMA_20] and
    [SMA_50], which were not there. *)
Lemma detect_trend_overwrites_counterexample :
  let s1 := fst (calculate_rsi 7 (session "stock" (ramp 10 8))) in
  let s2 := fst (detect_trend s1) in
  is_ok (snd (detect_trend s1)) = true ∧
  is_Some (indicators s1 !! "RSI") ∧
  indicators s2 !! "RSI" ≠ indicators s1 !! "RSI" ∧
  indicators s1 !! "SMA_20" = None ∧
  is_Some (indicators s2 !! "SMA_20") ∧
  indicators s1 !! "SMA_50" = None ∧
  is_Some (indicators s2 !! "SMA_50").
Proof.
  cbv zeta. split; [reflexivity |].
  split; [eexists; vm_compute; reflexivity |].
  split; [vm_compute; discriminate |].
  split; [reflexivity |].
  split; [eexists; vm_compute; reflexivity |].
  split; [reflexivity |].
  eexists; vm_compute; reflexivity.
Qed.

(** ** Length of every stored series *)

Lemma aligned_set_indicator k s a df :
  data a = Some df → series_length s = length df → aligned a →
  aligned (set_indicator k s a).
Proof.
  intros Hd Hs Ha df' k' s' Hd' Hk. cbn [data set_indicator] in Hd'.
  assert (df' = df) as -> by congruence.
  cbn [indicators set_indicator] in Hk.
  destruct (decide (k = k')) as [-> | Hne].
  - rewrite lookup_insert_eq in Hk. by injection Hk as <-.
  - rewrite lookup_insert_ne in Hk by done. by apply (Ha df k' s').
Qed.

Lemma macd_series_lengths fast slow signal xs macd sig hist :
  macd_series fast slow signal xs = Ok (macd, sig, hist) →
  length macd = length xs ∧ length sig = length xs ∧
  length hist = length xs.
Proof.
  unfold macd_series, rbind.
  destruct (Pandas.ewm_mean fast xs) as [ef|] eqn:Hf; [|discriminate].
  destruct (Pandas.ewm_mean slow xs) as [es|] eqn:Hs; [|discriminate].
  destruct (Pandas.ewm_mean signal _) as [sg|] eqn:Hg; [|discriminate].
  intros [= <- <- <-].
  apply ewm_mean_length in Hf, Hs, Hg.
  rewrite length_zip_with in Hg.
  rewrite !length_zip_with. lia.
Qed.

Lemma calculate_sma_result w a df sma :
  data a = Some df → snd (calculate_sma w a) = Ok sma →
  length sma = length df ∧
  calculate_sma w a =
    (set_indicator ("SMA_" +:+ pretty w) (Floats sma) a, Ok sma).
Proof.
  intros Hd. destruct (Pandas.rolling_mean w (closes df)) as [ys|e] eqn:Hr.
  - rewrite (calculate_sma_ok w a df ys Hd Hr). intros [= <-].
    split; [|done]. by rewrite (rolling_mean_length _ _ _ Hr), length_closes.
  - by rewrite (calculate_sma_raise w a df e Hd Hr).
Qed.

Lemma calculate_ema_result w a df ema :
  data a = Some df → snd (calculate_ema w a) = Ok ema →
  length ema = length df ∧
  calculate_ema w a =
    (set_indicator ("EMA_" +:+ pretty w) (Floats ema) a, Ok ema).
Proof.
  intros Hd. destruct (Pandas.ewm_mean w (closes df)) as [ys|e] eqn:Hr.
  - rewrite (calculate_ema_ok w a df ys Hd Hr). intros [= <-].
    split; [|done]. by rewrite (ewm_mean_length _ _ _ Hr), length_closes.
  - by rewrite (calculate_ema_raise w a df e Hd Hr).
Qed.

Lemma calculate_rsi_result p a df rsi :
  data a = Some df → snd (calculate_rsi p a) = Ok rsi →
  length rsi = length df ∧
  calculate_rsi p a = (set_indicator "RSI" (Floats rsi) a, Ok rsi).
Proof.
  intros Hd. destruct (rsi_series p (closes df)) as [ys|e] eqn:Hr.
  - rewrite (calculate_rsi_ok p a df ys Hd Hr). intros [= <-].
    split; [|done]. by rewrite (rsi_series_length _ _ _ Hr), length_closes.
  - by rewrite (calculate_rsi_raise p a df e Hd Hr).
Qed.

Lemma calculate_macd_result f s g a df macd sig hist :
  data a = Some df → snd (calculate_macd f s g a) = Ok (macd, sig, hist) →
  (length macd = length df ∧ length sig = length df ∧
   length hist = length df) ∧
  calculate_macd f s g a =
    (set_indicator "Histogram" (Floats hist)
       (set_indicator "Signal" (Floats sig)
          (set_indicator "MACD" (Floats macd) a)),
     Ok (macd, sig, hist)).
Proof.
  intros Hd. destruct (macd_series f s g (closes df)) as [[[m sg] h]|e] eqn:Hr.
  - rewrite (calculate_macd_ok f s g a df m sg h Hd Hr). intros [= <- <- <-].
    split; [|done]. rewrite <-(length_closes df).
    by apply macd_series_lengths with f s g.
  - by rewrite (calculate_macd_raise f s g a df e Hd Hr).
Qed.

Lemma detect_trend_result a df trend :
  data a = Some df → snd (detect_trend a) = Ok trend →
  length trend = length df.
Proof.
  intros Hd.
  destruct (detect_trend_run a df Hd)
    as (s20 & s50 & r & t & _ & _ & _ & -> & Hlen & _).
  by intros [= <-].
Qed.

Lemma exec_preserves c a df :
  data a = Some df → aligned a →
  data (exec c a) = Some df ∧ aligned (exec c a).
Proof.
  intros Hd Ha. destruct c as [w | w | p | f s g |]; cbn [exec].
  - destruct (Pandas.rolling_mean w (closes df)) as [ys|e] eqn:Hr.
    + rewrite (calculate_sma_ok w a df ys Hd Hr). split; [done |].
      apply aligned_set_indicator with df; try done.
      cbn. by rewrite (rolling_mean_length _ _ _ Hr), length_closes.
    + by rewrite (calculate_sma_raise w a df e Hd Hr).
  - destruct (Pandas.ewm_mean w (closes df)) as [ys|e] eqn:Hr.
    + rewrite (calculate_ema_ok w a df ys Hd Hr). split; [done |].
      apply aligned_set_indicator with df; try done.
      cbn. by rewrite (ewm_mean_length _ _ _ Hr), length_closes.
    + by rewrite (calculate_ema_raise w a df e Hd Hr).
  - destruct (rsi_series p (closes df)) as [ys|e] eqn:Hr.
    + rewrite (calculate_rsi_ok p a df ys Hd Hr). split; [done |].
      apply aligned_set_indicator with df; try done.
      cbn. by rewrite (rsi_series_length _ _ _ Hr), length_closes.
    + by rewrite (calculate_rsi_raise p a df e Hd Hr).
  - destruct (macd_series f s g (closes df)) as [[[m sg] h]|e] eqn:Hr.
    + rewrite (calculate_macd_ok f s g a df m sg h Hd Hr). split; [done |].
      destruct (macd_series_lengths _ _ _ _ _ _ _ Hr) as (Lm & Ls & Lh).
      rewrite length_closes in Lm, Ls, Lh.
      repeat (apply aligned_set_indicator with df; try done).
    + by rewrite (calculate_macd_raise f s g a df e Hd Hr).
  - destruct (detect_trend_run a df Hd)
      as (s20 & s50 & r & t & H20 & H50 & Hrsi & -> & Hlen & _).
    split; [done |]. cbn [fst].
    apply rolling_mean_length in H20, H50. apply rsi_series_length in Hrsi.
    rewrite length_closes in H20, H50, Hrsi.
    repeat (apply aligned_set_indicator with df; try done).
Qed.

Lemma exec_all_preserves cs : ∀ a df,
  data a = Some df → aligned a →
  data (exec_all cs a) = Some df ∧ aligned (exec_all cs a).
Proof.
  induction cs as [|c cs IH]; intros a df Hd Ha; [done |].
  cbn [exec_all foldl].
  destruct (exec_preserves c a df Hd Ha) as [Hd' Ha'].
  by apply (IH (exec c a) df).
Qed.

Lemma init_indicators sym mkt tf a :
  init sym mkt tf = Ok a → indicators a = ∅ ∧ data a = None.
Proof.
  unfold init, rbind. destruct (validate_inputs _); [|discriminate].
  by intros [= <-].
Qed.

Lemma fetch_data_indicators src end_date a :
  indicators (fst (fetch_data src end_date a)) = indicators a.
Proof.
  unfold fetch_data.
  destruct (bool_decide (market_type a = "stock")).
  { by destruct (yf_history src). }
  destruct (bool_decide (market_type a = "crypto")).
  { by destruct (negb _). }
  by destruct (data a).
Qed.

Lemma fetch_data_ok_data src end_date a a1 :
  fetch_data src end_date a = (a1, Ok tt) → is_Some (data a1).
Proof.
  unfold fetch_data.
  destruct (bool_decide (market_type a = "stock")).
  { destruct (yf_history src) eqn:E; intros [= <-]; cbn. by eexists. }
  destruct (bool_decide (market_type a = "crypto")).
  { destruct (negb _); intros [= <-]. cbn. by eexists. }
  destruct (data a) eqn:E; intros [= <-]. by eexists.
Qed.

(** C9. In a session opened by the constructor and loaded by one successful
    [fetch_data], after any sequence of indicator calls every series stored
    in the mapping has exactly one cell per row of the frame, and so has
    every series an indicator call returns: SMA, EMA, RSI, the three MACD
    lines and the trend labels. *)
Theorem stored_series_have_frame_length (sym mkt tf : string) (src : feed)
    (end_date : Z) (a0 a1 : analyzer) (cs : list call) :
  init sym mkt tf = Ok a0 →
  fetch_data src end_date a0 = (a1, Ok tt) →
  ∃ df,
    data a1 = Some df ∧
    data (exec_all cs a1) = Some df ∧
    (∀ k s, indicators (exec_all cs a1) !! k = Some s →
            series_length s = length df) ∧
    (∀ w sma, snd (calculate_sma w (exec_all cs a1)) = Ok sma →
              length sma = length df) ∧
    (∀ w ema, snd (calculate_ema w (exec_all cs a1)) = Ok ema →
              length ema = length df) ∧
    (∀ p rsi, snd (calculate_rsi p (exec_all cs a1)) = Ok rsi →
              length rsi = length df) ∧
    (∀ f s g macd sig hist,
       snd (calculate_macd f s g (exec_all cs a1)) = Ok (macd, sig, hist) →
       length macd = length df ∧ length sig = length df ∧
       length hist = length df) ∧
    (∀ trend, snd (detect_trend (exec_all cs a1)) = Ok trend →
              length trend = length df).
Proof.
  intros Hinit Hfetch.
  destruct (fetch_data_ok_data _ _ _ _ Hfetch) as [df Hd].
  assert (aligned a1) as Ha1.
  { intros df' k s _ Hk.
    pose proof (fetch_data_indicators src end_date a0) as Hi.
    rewrite Hfetch in Hi. cbn [fst] in Hi.
    destruct (init_indicators _ _ _ _ Hinit) as [Hempty _].
    rewrite Hi, Hempty, lookup_empty in Hk. discriminate. }
  destruct (exec_all_preserves cs a1 df Hd Ha1) as [Hd' Ha'].
  exists df. split; [done |]. split; [done |].
  split; [intros k s Hk; by apply (Ha' df k s) |].
  split; [intros w sma H; by apply (calculate_sma_result w _ df sma Hd') |].
  split; [intros w ema H; by apply (calculate_ema_result w _ df ema Hd') |].
  split; [intros p rsi H; by apply (calculate_rsi_result p _ df rsi Hd') |].
  split.
  - intros f s g macd sig hist H.
    by apply (calculate_macd_result f s g _ df macd sig hist Hd').
  - intros trend H. by apply (detect_trend_result _ df trend Hd').
Qed.

Lemma stored_series_have_frame_length_witness :
  ∃ df,
    data (session "stock" (ramp 10 60)) = Some df ∧
    data (exec_all [CallSMA 20; CallEMA 20; CallRSI 7; CallMACD 12 26 9;
                    CallSMA 0; CallEMA 0; CallTrend]
                   (session "stock" (ramp 10 60))) = Some df ∧
    (∀ k s,
       indicators
         (exec_all [CallSMA 20; CallEMA 20; CallRSI 7; CallMACD 12 26 9;
                    CallSMA 0; CallEMA 0; CallTrend]
                   (session "stock" (ramp 10 60))) !! k = Some s →
       series_length s = length df) ∧
    (∀ w sma,
       snd (calculate_sma w
              (exec_all [CallSMA 20; CallEMA 20; CallRSI 7; CallMACD 12 26 9;
                         CallSMA 0; CallEMA 0; CallTrend]
                        (session "stock" (ramp 10 60)))) = Ok sma →
       length sma = length df) ∧
    (∀ w ema,
       snd (calculate_ema w
              (exec_all [CallSMA 20; CallEMA 20; CallRSI 7; CallMACD 12 26 9;
                         CallSMA 0; CallEMA 0; CallTrend]
                        (session "stock" (ramp 10 60)))) = Ok ema →
       length ema = length df) ∧
    (∀ p rsi,
       snd (calculate_rsi p
              (exec_all [CallSMA 20; CallEMA 20; CallRSI 7; CallMACD 12 26 9;
                         CallSMA 0; CallEMA 0; CallTrend]
                        (session "stock" (ramp 10 60)))) = Ok rsi →
       length rsi = length df) ∧
    (∀ f s g macd sig hist,
       snd (calculate_macd f s g
              (exec_all [CallSMA 20; CallEMA 20; CallRSI 7; CallMACD 12 26 9;
                         CallSMA 0; CallEMA 0; CallTrend]
                        (session "stock" (ramp 10 60))))
         = Ok (macd, sig, hist) →
       length macd = length df ∧ length sig = length df ∧
       length hist = length df) ∧
    (∀ trend,
       snd (detect_trend
              (exec_all [CallSMA 20; CallEMA 20; CallRSI 7; CallMACD 12 26 9;
                         CallSMA 0; CallEMA 0; CallTrend]
                        (session "stock" (ramp 10 60)))) = Ok trend →
       length trend = length df).
Proof.
  apply (stored_series_have_frame_length "BTC/USDT" "Stock" "1d"
           (mkFeed (frame_of (ramp 10 60)) []) 0
           (mkAnalyzer "BTC/USDT" "stock" "1d" None ∅)
           (session "stock" (ramp 10 60))).
  - reflexivity.
  - reflexivity.
Defined.

(** ** The first price difference in the RSI *)

Lemma Qz0_opp : (- Qz 0)%Qc = Qz 0.
Proof. rewrite Qz_0. ring. Qed.

Lemma diff_lookup_0 x xs : Pandas.diff (x :: xs) !! 0%nat = Some NaN.
Proof. reflexivity. Qed.

Lemma diff_lookup_S xs j x y :
  xs !! j = Some x → xs !! S j = Some y →
  Pandas.diff xs !! S j = Some (fsub y x).
Proof.
  intros Hx Hy. destruct xs as [|x0 rest]; [done |].
  cbn [Pandas.diff]. cbn [lookup list_lookup] in Hy |- *.
  change (zip_with fsub rest (x0 :: rest) !! j = Some (fsub y x)).
  rewrite lookup_zip_with.
  change (rest !! j = Some y) in Hy. rewrite Hy. simpl. by rewrite Hx.
Qed.

Lemma rsi_gain_raw_lookup xs j :
  rsi_gain_raw xs !! j = gain_cell <$> Pandas.diff xs !! j.
Proof. unfold rsi_gain_raw, Pandas.where_, rsi_delta. apply list_lookup_fmap. Qed.

Lemma rsi_loss_raw_lookup xs j :
  rsi_loss_raw xs !! j = loss_cell <$> Pandas.diff xs !! j.
Proof.
  unfold rsi_loss_raw, Pandas.where_, rsi_delta.
  rewrite <-list_fmap_compose. apply list_lookup_fmap.
Qed.

Lemma rsi_raw_first x xs :
  rsi_gain_raw (x :: xs) !! 0%nat = Some (Fz 0) ∧
  rsi_loss_raw (x :: xs) !! 0%nat = Some (Fz 0).
Proof.
  rewrite rsi_gain_raw_lookup, rsi_loss_raw_lookup, diff_lookup_0.
  split; [done |]. cbn. unfold loss_cell. cbn. unfold Fz.
  by rewrite Qz0_opp.
Qed.

Lemma diff_price xs : price_series xs → price_series (Pandas.diff xs).
Proof.
  intros Hp. apply Forall_lookup. intros j d Hd.
  destruct j as [|j].
  - destruct xs; [done |]. by injection Hd as <-.
  - assert (S j < length xs)%nat as Hlt.
    { rewrite <-length_diff. by apply lookup_lt_Some in Hd. }
    destruct (lookup_lt_is_Some_2 xs j) as [x Hx]; [lia |].
    destruct (lookup_lt_is_Some_2 xs (S j)) as [y Hy]; [lia |].
    rewrite (diff_lookup_S xs j x y Hx Hy) in Hd. injection Hd as <-.
    unfold price_series in Hp. rewrite Forall_lookup in Hp.
    apply fsub_price; [by apply (Hp (S j)) | by apply (Hp j)].
Qed.

Lemma gain_cell_finite d : is_inf d = false → is_finite (gain_cell d) = true.
Proof. unfold gain_cell. destruct d; try done. simpl. by case_bool_decide. Qed.

Lemma loss_cell_finite d : is_inf d = false → is_finite (loss_cell d) = true.
Proof. unfold loss_cell. destruct d; try done. simpl. by case_bool_decide. Qed.

Lemma rsi_gain_raw_finite xs : price_series xs → all_finite (rsi_gain_raw xs).
Proof.
  intros Hp%diff_price. unfold rsi_gain_raw, Pandas.where_, rsi_delta.
  apply Forall_fmap. eapply Forall_impl; [exact Hp |].
  intros d Hd. by apply gain_cell_finite.
Qed.

Lemma rsi_loss_raw_finite xs : price_series xs → all_finite (rsi_loss_raw xs).
Proof.
  intros Hp%diff_price. unfold rsi_loss_raw, Pandas.where_, rsi_delta.
  rewrite <-list_fmap_compose.
  apply Forall_fmap. eapply Forall_impl; [exact Hp |].
  intros d Hd. by apply loss_cell_finite.
Qed.

Lemma fsum_all_finite xs : all_finite xs → ∃ s, Pandas.fsum xs = Fin s.
Proof.
  induction 1 as [|x xs Hx Hxs [s Hs]]; [by eexists |].
  destruct x as [| | |q]; try discriminate.
  exists (q + s)%Qc. by rewrite fsum_cons, Hs.
Qed.

Lemma filter_all_finite xs : all_finite xs → List.filter is_finite xs = xs.
Proof.
  induction 1 as [|x xs Hx Hxs IH]; [done |]. simpl. by rewrite Hx, IH.
Qed.

Lemma window_mean_all_finite n win :
  (0 < n)%nat → length win = n → all_finite win →
  ∃ s, Pandas.fsum win = Fin s ∧
       Pandas.window_mean n win = Fin (s / Qz (Z.of_nat n))%Qc.
Proof.
  intros Hn Hlen Hfin. destruct (fsum_all_finite win Hfin) as [s Hs].
  exists s. split; [done |]. unfold Pandas.window_mean.
  rewrite (filter_all_finite win Hfin), Hlen, Nat.leb_refl.
  rewrite (proj2 (Nat.ltb_lt 0 n) Hn). cbn [andb].
  rewrite Hs. unfold Fz. apply fdiv_fin. apply Qz_ne_0. lia.
Qed.


Lemma increasing_step xs j :
  all_finite xs → strictly_increasing xs → (S j < length xs)%nat →
  ∃ q, Pandas.diff xs !! S j = Some (Fin q) ∧ (0 < q)%Qc.
Proof.
  intros Hfin Hinc Hj.
  destruct (lookup_lt_is_Some_2 xs j) as [x Hx]; [lia |].
  destruct (lookup_lt_is_Some_2 xs (S j)) as [y Hy]; [lia |].
  pose proof (Hinc j x y Hx Hy) as Hlt.
  unfold all_finite in Hfin. rewrite Forall_lookup in Hfin.
  pose proof (Hfin j x Hx) as Fx. pose proof (Hfin (S j) y Hy) as Fy.
  destruct x as [| | |a]; try discriminate.
  destruct y as [| | |b]; try discriminate.
  apply flt_fin in Hlt.
  exists (b + - a)%Qc.
  split; [exact (diff_lookup_S xs j (Fin a) (Fin b) Hx Hy) |].
  exact (proj1 (Qclt_minus_iff a b) Hlt).
Qed.

Lemma increasing_gain_pos xs j :
  all_finite xs → strictly_increasing xs → (S j < length xs)%nat →
  ∃ q, rsi_gain_raw xs !! S j = Some (Fin q) ∧ (0 < q)%Qc.
Proof.
  intros Hfin Hinc Hj.
  destruct (increasing_step xs j Hfin Hinc Hj) as (q & Hq & Hpos).
  exists q. split; [|done].
  rewrite rsi_gain_raw_lookup, Hq. cbn [fmap option_fmap option_map].
  f_equal. unfold gain_cell, fgt, Fz. cbn [flt].
  rewrite bool_decide_eq_true_2; [done |]. by rewrite Qz_0.
Qed.

Lemma increasing_loss_zero xs j :
  all_finite xs → strictly_increasing xs → (j < length xs)%nat →
  rsi_loss_raw xs !! j = Some (Fz 0).
Proof.
  intros Hfin Hinc Hj. destruct j as [|j].
  - destruct xs as [|x xs]; [simpl in Hj; lia |]. apply rsi_raw_first.
  - destruct (increasing_step xs j Hfin Hinc Hj) as (q & Hq & Hpos).
    rewrite rsi_loss_raw_lookup, Hq. cbn [fmap option_fmap option_map].
    f_equal. unfold loss_cell, Fz. cbn [flt].
    rewrite bool_decide_eq_false_2.
    + cbn [fopp]. by rewrite Qz0_opp.
    + rewrite Qz_0. intros Hneg.
      exact (Qclt_not_le _ _ Hneg (Qclt_le_weak _ _ Hpos)).
Qed.

Lemma fsum_zero win :
  Forall (fun x => x = Fz 0) win → Pandas.fsum win = Fz 0.
Proof.
  induction 1 as [|x win -> Hwin IH]; [done |].
  rewrite fsum_cons, IH. unfold Fz. cbn [fadd]. f_equal.
  rewrite Qz_0. ring.
Qed.

Lemma fsum_pos win :
  all_finite win → Forall nonneg_cell win →
  (∃ q, Fin q ∈ win ∧ (0 < q)%Qc) →
  ∃ s, Pandas.fsum win = Fin s ∧ (0 < s)%Qc.
Proof.
  induction 1 as [|x win Hx Hwin IH]; intros Hnn (q & Hin & Hq).
  { by apply elem_of_nil in Hin. }
  apply Forall_cons in Hnn as [Hx0 Hnn].
  destruct x as [| | |a]; try discriminate. cbn in Hx0.
  rewrite fsum_cons.
  apply elem_of_cons in Hin as [Heq | Hin].
  - injection Heq as <-.
    destruct (fsum_finite_nonneg win Hwin Hnn) as (s & -> & Hs).
    exists (q + s)%Qc. split; [done |]. by apply Qcplus_pos_nonneg.
  - destruct IH as (s & -> & Hs); [done | by exists q |].
    exists (a + s)%Qc. split; [done |]. by apply Qcplus_nonneg_pos.
Qed.

Lemma window_at_last w i xs x :
  (1 ≤ w)%nat → xs !! i = Some x → x ∈ Pandas.window_at w i xs.
Proof.
  intros Hw Hx. unfold Pandas.window_at.
  apply list_elem_of_lookup. exists (i - (S i - w))%nat.
  rewrite lookup_drop, lookup_take_lt by lia.
  rewrite <-Hx. f_equal. lia.
Qed.


Lemma Forall_window_at (P : float → Prop) w i xs :
  Forall P xs → Forall P (Pandas.window_at w i xs).
Proof. intros H. by apply Forall_drop, Forall_take. Qed.

Lemma rsi_series_increasing p xs rsi i :
  1 ≤ p → all_finite xs → strictly_increasing xs →
  rsi_series p xs = Ok rsi →
  p - 1 ≤ Z.of_nat i → (1 ≤ i)%nat → (i < length xs)%nat →
  rsi !! i = Some (Fz 100).
Proof.
  intros Hp Hfin Hinc Hrsi Hi H1 Hlen.
  destruct (rsi_series_inv _ _ _ Hrsi) as (gain & loss & Hg & Hl & -> & _ & _).
  assert (price_series xs) as Hprice.
  { eapply Forall_impl; [exact Hfin |]. by intros [| | |q]. }
  unfold rsi_gain in Hg. unfold rsi_loss in Hl.
  pose proof (rolling_mean_lookup _ _ _ i Hg) as Hgi.
  pose proof (rolling_mean_lookup _ _ _ i Hl) as Hli.
  rewrite length_rsi_gain_raw in Hgi. rewrite length_rsi_loss_raw in Hli.
  specialize (Hgi Hlen). specialize (Hli Hlen).
  set (n := Z.to_nat p) in *.
  assert (1 ≤ n ∧ n ≤ S i)%nat as [Hn1 Hn2] by (subst n; lia).
  (* average gain: positive *)
  destruct (window_at_full n i (rsi_gain_raw xs)) as [_ Lg];
    [lia | by rewrite length_rsi_gain_raw |].
  pose proof (Forall_window_at _ n i _ (rsi_gain_raw_finite xs Hprice)) as Fg.
  destruct (window_mean_all_finite n _ ltac:(lia) Lg Fg) as (sg & Hsg & Hmg).
  destruct (fsum_pos _ Fg (Forall_window_at _ n i _ (rsi_gain_raw_nonneg xs)))
    as (sg' & Hsg' & Hpos).
  { destruct i as [|j]; [lia |].
    destruct (increasing_gain_pos xs j Hfin Hinc Hlen) as (q & Hq & Hq0).
    exists q. split; [|done]. by apply window_at_last. }
  assert (sg' = sg) as -> by congruence.
  (* average loss: zero *)
  destruct (window_at_full n i (rsi_loss_raw xs)) as [_ Ll];
    [lia | by rewrite length_rsi_loss_raw |].
  assert (Forall (fun x => x = Fz 0) (rsi_loss_raw xs)) as Hzero.
  { apply Forall_lookup. intros j x Hx.
    assert (j < length xs)%nat as Hj.
    { rewrite <-length_rsi_loss_raw. by apply lookup_lt_Some in Hx. }
    rewrite (increasing_loss_zero xs j Hfin Hinc Hj) in Hx. by injection Hx. }
  pose proof (Forall_window_at _ n i _ (rsi_loss_raw_finite xs Hprice)) as Fl.
  destruct (window_mean_all_finite n _ ltac:(lia) Ll Fl) as (sl & Hsl & Hml).
  rewrite (fsum_zero _ (Forall_window_at _ n i _ Hzero)) in Hsl.
  injection Hsl as <-.
  rewrite Hmg in Hgi. rewrite Hml in Hli.
  rewrite (rsi_of_lookup _ _ _ _ _ Hgi Hli).
  f_equal.
  assert (Qz 0 / Qz (Z.of_nat n) = 0)%Qc as ->.
  { rewrite Qz_0. unfold Qcdiv. apply Qcmult_0_l. }
  apply rsi_cell_saturates. apply Qcdiv_pos; [done |]. apply Qz_pos. lia.
Qed.

Lemma rsi_cell_nan_gain l : rsi_cell NaN l = NaN.
Proof. reflexivity. Qed.


Lemma rsi_averages_defined p xs gain loss i :
  1 ≤ p → price_series xs →
  rsi_gain p xs = Ok gain → rsi_loss p xs = Ok loss →
  p - 1 ≤ Z.of_nat i → (i < length xs)%nat →
  ∃ g l, gain !! i = Some (Fin g) ∧ loss !! i = Some (Fin l).
Proof.
  intros Hp Hprice Hg Hl Hi Hlen. unfold rsi_gain in Hg. unfold rsi_loss in Hl.
  pose proof (rolling_mean_lookup _ _ _ i Hg) as Hgi.
  pose proof (rolling_mean_lookup _ _ _ i Hl) as Hli.
  rewrite length_rsi_gain_raw in Hgi. rewrite length_rsi_loss_raw in Hli.
  specialize (Hgi Hlen). specialize (Hli Hlen).
  assert (1 ≤ Z.to_nat p ∧ Z.to_nat p ≤ S i)%nat as [Hn1 Hn2] by lia.
  destruct (window_at_full (Z.to_nat p) i (rsi_gain_raw xs)) as [_ Lg];
    [lia | by rewrite length_rsi_gain_raw |].
  destruct (window_at_full (Z.to_nat p) i (rsi_loss_raw xs)) as [_ Ll];
    [lia | by rewrite length_rsi_loss_raw |].
  destruct (window_mean_all_finite (Z.to_nat p) _ ltac:(lia) Lg
              (Forall_window_at _ _ i _ (rsi_gain_raw_finite xs Hprice)))
    as (sg & _ & Hmg).
  destruct (window_mean_all_finite (Z.to_nat p) _ ltac:(lia) Ll
              (Forall_window_at _ _ i _ (rsi_loss_raw_finite xs Hprice)))
    as (sl & _ & Hml).
  rewrite Hmg in Hgi. rewrite Hml in Hli. by eexists _, _.
Qed.

Lemma ramp_lookup start n i :
  (i < n)%nat → ramp start n !! i = Some (Fz (start + Z.of_nat i)).
Proof.
  intros Hi. unfold ramp. by rewrite list_lookup_fmap, lookup_seq_lt.
Qed.

Lemma ramp_all_finite start n : all_finite (ramp start n).
Proof. unfold ramp. apply Forall_fmap, Forall_true. done. Qed.

Lemma ramp_strictly_increasing start n : strictly_increasing (ramp start n).
Proof.
  intros i x y Hx Hy.
  assert (S i < n)%nat as Hi.
  { apply lookup_lt_Some in Hy. by rewrite length_ramp in Hy. }
  rewrite ramp_lookup in Hx by lia. rewrite ramp_lookup in Hy by lia.
  injection Hx as <-. injection Hy as <-.
  apply flt_fin. unfold Qz. apply (proj1 (Z2Qc_inj_lt _ _)). lia.
Qed.


(** C3. For a period [P >= 1], at every row where the rolling average gain
    and loss are both defined (finite cells): the RSI cell lies in [0, 100]
    when the average loss is positive; it is exactly 100 when the average
    loss is zero and the average gain positive; it is NaN when both are
    zero.  The averages exist whenever [P < 2^63] (the call then returns
    one cell per row), and on a price column they are defined at every row
    from [P-1] on. *)
Theorem rsi_range_saturation_indeterminate (periods : Z) (a : analyzer)
    (df : DataFrame) :
  1 ≤ periods → data a = Some df →
  (∀ gain loss,
     rsi_gain periods (closes df) = Ok gain →
     rsi_loss periods (closes df) = Ok loss →
     ∃ rsi,
       calculate_rsi periods a = (set_indicator "RSI" (Floats rsi) a, Ok rsi) ∧
       length rsi = length df ∧
       ∀ i g l, gain !! i = Some (Fin g) → loss !! i = Some (Fin l) →
         ((0 < l)%Qc →
            ∃ r, rsi !! i = Some (Fin r) ∧ (0 ≤ r)%Qc ∧ (r ≤ Qz 100)%Qc) ∧
         (l = 0%Qc → (0 < g)%Qc → rsi !! i = Some (Fz 100)) ∧
         (l = 0%Qc → g = 0%Qc → rsi !! i = Some NaN)) ∧
  (periods < 2 ^ 63 →
     ∃ gain loss,
       rsi_gain periods (closes df) = Ok gain ∧
       rsi_loss periods (closes df) = Ok loss ∧
       length gain = length df ∧ length loss = length df ∧
       (price_series (closes df) →
        ∀ i, periods - 1 ≤ Z.of_nat i → (i < length df)%nat →
             ∃ g l, gain !! i = Some (Fin g) ∧ loss !! i = Some (Fin l))).
Proof.
  intros Hp Hd. split.
  - intros gain loss Hg Hl.
    assert (rsi_series periods (closes df) = Ok (rsi_of gain loss)) as Hrsi.
    { unfold rsi_series. by rewrite Hg, Hl. }
    exists (rsi_of gain loss).
    split; [by apply calculate_rsi_ok with df |].
    split; [by rewrite (rsi_series_length _ _ _ Hrsi), length_closes |].
    intros i g l Hgi Hli.
    rewrite (rsi_of_lookup _ _ _ _ _ Hgi Hli).
    pose proof (rolling_mean_nonneg _ _ _ _ _ (rsi_gain_raw_nonneg _) Hg Hgi)
      as Hg0.
    split; [|split].
    + intros Hlpos. destruct (rsi_cell_range g l Hg0 Hlpos) as (r & -> & Hr).
      by exists r.
    + intros -> Hgpos. by rewrite rsi_cell_saturates.
    + by intros -> ->.
  - intros Hfit.
    destruct (rsi_series_ok periods (closes df)) as (rsi & Hrsi & _);
      [lia | lia |].
    destruct (rsi_series_inv _ _ _ Hrsi)
      as (gain & loss & Hg & Hl & _ & Lg & Ll).
    exists gain, loss. rewrite length_closes in Lg, Ll.
    split; [done |]. split; [done |]. split; [done |]. split; [done |].
    intros Hprice i Hi Hlen.
    apply (rsi_averages_defined periods (closes df)); try done.
    by rewrite length_closes.
Qed.

Lemma rsi_range_saturation_indeterminate_witness :
  (∀ gain loss,
     rsi_gain 14 (closes (frame_of (ramp 10 60))) = Ok gain →
     rsi_loss 14 (closes (frame_of (ramp 10 60))) = Ok loss →
     ∃ rsi,
       calculate_rsi 14 (session "stock" (ramp 10 60)) =
         (set_indicator "RSI" (Floats rsi) (session "stock" (ramp 10 60)),
          Ok rsi) ∧
       length rsi = length (frame_of (ramp 10 60)) ∧
       ∀ i g l, gain !! i = Some (Fin g) → loss !! i = Some (Fin l) →
         ((0 < l)%Qc →
            ∃ r, rsi !! i = Some (Fin r) ∧ (0 ≤ r)%Qc ∧ (r ≤ Qz 100)%Qc) ∧
         (l = 0%Qc → (0 < g)%Qc → rsi !! i = Some (Fz 100)) ∧
         (l = 0%Qc → g = 0%Qc → rsi !! i = Some NaN)) ∧
  (∃ gain loss,
     rsi_gain 14 (closes (frame_of (ramp 10 60))) = Ok gain ∧
     rsi_loss 14 (closes (frame_of (ramp 10 60))) = Ok loss ∧
     length gain = length (frame_of (ramp 10 60)) ∧
     length loss = length (frame_of (ramp 10 60)) ∧
     ∀ i, 14 - 1 ≤ Z.of_nat i → (i < length (frame_of (ramp 10 60)))%nat →
          ∃ g l, gain !! i = Some (Fin g) ∧ loss !! i = Some (Fin l)).
Proof.
  destruct (rsi_range_saturation_indeterminate 14
              (session "stock" (ramp 10 60)) (frame_of (ramp 10 60)))
    as [Hcells Hdefined]; [lia | reflexivity |].
  split; [exact Hcells |].
  destruct Hdefined as (gain & loss & Hg & Hl & Lg & Ll & Hrows); [lia |].
  exists gain, loss.
  split; [done |]. split; [done |]. split; [done |]. split; [done |].
  apply Hrows. rewrite closes_frame_of.
  eapply Forall_impl; [apply ramp_all_finite |]. by intros [| | |q].
Defined.




(** Sixty closes rising by one: the RSI(14) of the program is NaN on rows
    0..12 and 100 from row 13 on; with the first difference kept missing
    the first defined row would be 14. *)
Example rsi_rising_fixture :
  snd (calculate_rsi 14 (session "stock" (ramp 10 60))) =
    Ok (replicate 13 NaN ++ replicate 47 (Fz 100)) ∧
  rsi_series_nan_delta 14 (ramp 10 60) =
    Ok (replicate 14 NaN ++ replicate 46 (Fz 100)).
Proof.
  split.
  - destruct (calculate_rsi 14 (session "stock" (ramp 10 60)))
      as [a' [rsi|e]] eqn:E.
    + cbn [snd]. f_equal. apply floats_eqb_eq.
      apply (f_equal snd) in E. cbn [snd] in E.
      revert E. vm_compute. by intros [= <-].
    + apply (f_equal snd) in E. vm_compute in E. discriminate.
  - destruct (rsi_series_nan_delta 14 (ramp 10 60)) as [rsi|e] eqn:E.
    + f_equal. apply floats_eqb_eq. revert E. vm_compute. by intros [= <-].
    + vm_compute in E. discriminate.
Qed.


(** * Further properties of the analyzer *)

(** ** Construction *)

Lemma lower_ascii_idem c : lower_ascii (lower_ascii c) = lower_ascii c.
Proof.
  destruct c as [b0 b1 b2 b3 b4 b5 b6 b7].
  destruct b0, b1, b2, b3, b4, b5, b6, b7; reflexivity.
Qed.

Lemma lower_idem s : lower (lower s) = lower s.
Proof.
  induction s as [|c s IH]; [done |]. simpl. by rewrite lower_ascii_idem, IH.
Qed.

Lemma validate_inputs_ok a :
  validate_inputs a = Ok tt ↔
  (market_type a = "stock" ∨ market_type a = "crypto") ∧ symbol a ≠ "".
Proof.
  unfold validate_inputs.
  case_bool_decide as Hm; cbn [negb].
  - case_bool_decide as Hs.
    + split; [discriminate | intros [_ H]; done].
    + split; [|done]. intros _. split; [|done].
      apply elem_of_cons in Hm as [-> | Hm]; [by left |].
      apply elem_of_cons in Hm as [-> | Hm]; [by right |].
      by apply elem_of_nil in Hm.
  - split; [discriminate |]. intros [[E | E] _]; destruct Hm; rewrite E.
    + apply elem_of_cons. by left.
    + apply elem_of_cons. right. apply elem_of_cons. by left.
Qed.

(** X1. For a market type written in ASCII, the constructor accepts exactly
    the non-empty symbols whose market type is "stock" or "crypto" once
    lower-cased; the object it returns has the lower-cased market type, no
    frame and an empty mapping.  A bad market type is reported before an
    empty symbol. *)
Theorem init_accepts_iff (sym mkt tf : string) :
  ascii_text mkt = true →
  (init sym mkt tf = Ok (mkAnalyzer sym (lower mkt) tf None ∅) ↔
     (lower mkt = "stock" ∨ lower mkt = "crypto") ∧ sym ≠ "") ∧
  (∀ a, init sym mkt tf = Ok a → a = mkAnalyzer sym (lower mkt) tf None ∅) ∧
  (lower mkt ≠ "stock" → lower mkt ≠ "crypto" →
     init sym mkt tf =
       Raise (ValueError ("Invalid market type: " +:+ lower mkt))) ∧
  ((lower mkt = "stock" ∨ lower mkt = "crypto") → sym = "" →
     init sym mkt tf = Raise (ValueError "Symbol cannot be empty")).
Proof.
  intros _.
  pose proof (validate_inputs_ok (mkAnalyzer sym (lower mkt) tf None ∅)) as Hv.
  cbn [market_type symbol] in Hv.
  unfold init, rbind.
  split; [|split; [|split]].
  - destruct (validate_inputs _) as [[]|e] eqn:E.
    + split; [intros _; by apply Hv | done].
    + split; [discriminate |]. intros H. apply Hv in H. discriminate.
  - intros a. destruct (validate_inputs _); [by intros [= <-] | discriminate].
  - intros H1 H2. unfold validate_inputs. cbn [market_type].
    rewrite bool_decide_eq_false_2; [done |].
    intros Hm. apply elem_of_cons in Hm as [E | Hm]; [done |].
    apply elem_of_cons in Hm as [E | Hm]; [done |].
    by apply elem_of_nil in Hm.
  - intros Hm ->. unfold validate_inputs. cbn [market_type symbol].
    rewrite bool_decide_eq_true_2; [done |].
    destruct Hm as [-> | ->].
    + apply elem_of_cons. by left.
    + apply elem_of_cons. right. apply elem_of_cons. by left.
Qed.

Lemma init_accepts_iff_witness :
  (init "AAPL" "Stock" "1d" =
     Ok (mkAnalyzer "AAPL" (lower "Stock") "1d" None ∅) ↔
     (lower "Stock" = "stock" ∨ lower "Stock" = "crypto") ∧ "AAPL" ≠ "") ∧
  (∀ a, init "AAPL" "Stock" "1d" = Ok a →
        a = mkAnalyzer "AAPL" (lower "Stock") "1d" None ∅) ∧
  (lower "Stock" ≠ "stock" → lower "Stock" ≠ "crypto" →
     init "AAPL" "Stock" "1d" =
       Raise (ValueError ("Invalid market type: " +:+ lower "Stock"))) ∧
  ((lower "Stock" = "stock" ∨ lower "Stock" = "crypto") → "AAPL" = "" →
     init "AAPL" "Stock" "1d" = Raise (ValueError "Symbol cannot be empty")).
Proof.
  apply (init_accepts_iff "AAPL" "Stock" "1d"). reflexivity.
Defined.

(** X2. The market type is read without regard to (ASCII) letter case:
    constructing with a market type or with its lower-cased form gives the
    same outcome, so "Stock" and "CRYPTO" are accepted like "stock" and
    "crypto". *)
Theorem init_market_type_case_insensitive (sym mkt tf : string) :
  init sym (lower mkt) tf = init sym mkt tf ∧
  (∀ c s, is_ok (init (String c s) "Stock" tf) = true ∧
          is_ok (init (String c s) "CRYPTO" tf) = true).
Proof.
  split.
  - unfold init. by rewrite lower_idem.
  - intros c s. split; reflexivity.
Qed.

(** ** Fetching the frame *)



Lemma fetch_data_crypto_bad_timeframe a src end_date :
  market_type a = "crypto" → ¬ supported_timeframe (timeframe a) →
  fetch_data src end_date a =
    (a, Raise (ValueError ("Unsupported timeframe: " +:+ timeframe a))).
Proof.
  intros Hm Htf. unfold fetch_data. rewrite Hm.
  rewrite bool_decide_eq_false_2 by discriminate.
  rewrite bool_decide_eq_true_2 by done.
  by rewrite bool_decide_eq_false_2.
Qed.

Lemma fetch_data_stock a src end_date :
  market_type a = "stock" →
  fetch_data src end_date a =
    (set_data (yf_history src) a,
     match yf_history src with
     | [] => Raise (ValueError
                      "No data retrieved for the given symbol and date range")
     | _ => Ok tt
     end).
Proof.
  intros Hm. unfold fetch_data. rewrite Hm.
  rewrite bool_decide_eq_true_2 by done. by destruct (yf_history src).
Qed.



(** X4. A stock fetch that succeeds got a history that is not empty and has
    loaded it as the frame, whatever the timeframe; nothing else of the
    object has changed. *)
Theorem fetch_data_stock_loads_history (a a1 : analyzer) (src : feed)
    (end_date : Z) :
  market_type a = "stock" → fetch_data src end_date a = (a1, Ok tt) →
  yf_history src ≠ [] ∧ a1 = set_data (yf_history src) a.
Proof.
  intros Hm Hrun. rewrite (fetch_data_stock a src end_date Hm) in Hrun.
  destruct (yf_history src) as [|r rows]; [discriminate |].
  injection Hrun as <-. done.
Qed.

Lemma fetch_data_stock_loads_history_witness :
  yf_history (mkFeed [row_of 1 (Fz 10); row_of 2 (Fz 11)] []) ≠ [] ∧
  set_data [row_of 1 (Fz 10); row_of 2 (Fz 11)]
           (mkAnalyzer "AAPL" "stock" "1d" None ∅) =
    set_data (yf_history (mkFeed [row_of 1 (Fz 10); row_of 2 (Fz 11)] []))
             (mkAnalyzer "AAPL" "stock" "1d" None ∅).
Proof.
  apply (fetch_data_stock_loads_history
           (mkAnalyzer "AAPL" "stock" "1d" None ∅) _
           (mkFeed [row_of 1 (Fz 10); row_of 2 (Fz 11)] []) 5).
  - reflexivity.
  - reflexivity.
Defined.

(** X5. What [fetch_data] does to the object: it never touches the symbol,
    the market type, the timeframe or the indicator mapping; a crypto fetch
    with an unsupported timeframe fails and leaves the object as it was; a
    stock fetch that fails on an empty history has already replaced the
    frame by the empty one. *)
Theorem fetch_data_effects (a : analyzer) (src : feed) (end_date : Z) :
  symbol (fst (fetch_data src end_date a)) = symbol a ∧
  market_type (fst (fetch_data src end_date a)) = market_type a ∧
  timeframe (fst (fetch_data src end_date a)) = timeframe a ∧
  indicators (fst (fetch_data src end_date a)) = indicators a ∧
  (market_type a = "crypto" → ¬ supported_timeframe (timeframe a) →
   is_ok (snd (fetch_data src end_date a)) = false ∧
   fst (fetch_data src end_date a) = a) ∧
  (market_type a = "stock" → yf_history src = [] →
   is_ok (snd (fetch_data src end_date a)) = false ∧
   data (fst (fetch_data src end_date a)) = Some []).
Proof.
  split; [|split; [|split; [|split; [|split]]]].
  - unfold fetch_data. repeat case_bool_decide; cbn;
      by repeat (case_match; cbn).
  - unfold fetch_data. repeat case_bool_decide; cbn;
      by repeat (case_match; cbn).
  - unfold fetch_data. repeat case_bool_decide; cbn;
      by repeat (case_match; cbn).
  - apply fetch_data_indicators.
  - intros Hm H.
    by rewrite (fetch_data_crypto_bad_timeframe a src end_date Hm H).
  - intros Hm Hh. rewrite (fetch_data_stock a src end_date Hm). cbn.
    by rewrite Hh.
Qed.

(** ** When an indicator call fails, and what it leaves behind *)

Lemma calculate_sma_unloaded w a :
  data a = None →
  calculate_sma w a =
    (a, Raise (TypeError "'NoneType' object is not subscriptable")).
Proof.
  intros Hd. unfold calculate_sma, mbind. by rewrite (get_close_none a Hd).
Qed.

Lemma calculate_ema_unloaded w a :
  data a = None →
  calculate_ema w a =
    (a, Raise (TypeError "'NoneType' object is not subscriptable")).
Proof.
  intros Hd. unfold calculate_ema, mbind. by rewrite (get_close_none a Hd).
Qed.

Lemma calculate_rsi_unloaded p a :
  data a = None →
  calculate_rsi p a =
    (a, Raise (TypeError "'NoneType' object is not subscriptable")).
Proof.
  intros Hd. unfold calculate_rsi, mbind. by rewrite (get_close_none a Hd).
Qed.

Lemma calculate_macd_unloaded f s g a :
  data a = None →
  calculate_macd f s g a =
    (a, Raise (TypeError "'NoneType' object is not subscriptable")).
Proof.
  intros Hd. unfold calculate_macd, mbind. by rewrite (get_close_none a Hd).
Qed.

Lemma detect_trend_unloaded a :
  data a = None →
  detect_trend a =
    (a, Raise (TypeError "'NoneType' object is not subscriptable")).
Proof.
  intros Hd. unfold detect_trend, mbind. by rewrite (calculate_sma_unloaded 20 a Hd).
Qed.

Lemma rolling_mean_cases w xs :
  (∃ ys, 0 ≤ w ∧ Pandas.rolling_mean w xs = Ok ys) ∨
  ((w < 0 ∨ 2 ^ 63 ≤ w) ∧ ∃ e, Pandas.rolling_mean w xs = Raise e).
Proof.
  destruct (decide (w < 0)) as [Hneg | Hneg].
  { right. split; [by left |]. eexists. by apply rolling_mean_raise. }
  destruct (decide (2 ^ 63 ≤ w ∧ Z.of_nat (length xs) < 2 ^ 63))
    as [[Hbig Hlen] | Hfit].
  { right. split; [by right |]. eexists. by apply rolling_mean_overflow. }
  left. eexists. split; [lia |]. apply rolling_mean_ok; lia.
Qed.

Lemma calculate_sma_cases w a :
  (∃ df sma, data a = Some df ∧ 0 ≤ w ∧
             Pandas.rolling_mean w (closes df) = Ok sma ∧
             calculate_sma w a =
               (set_indicator ("SMA_" +:+ pretty w) (Floats sma) a, Ok sma)) ∨
  ((data a = None ∨ w < 0 ∨ 2 ^ 63 ≤ w) ∧
   ∃ e, calculate_sma w a = (a, Raise e)).
Proof.
  destruct (data a) as [df|] eqn:Hd.
  - destruct (rolling_mean_cases w (closes df))
      as [(sma & Hw & Hr) | [Hbad [e Hr]]].
    + left. exists df, sma. split; [done |]. split; [done |].
      split; [done |]. by apply calculate_sma_ok with df.
    + right. split; [by right |]. exists e.
      by apply calculate_sma_raise with df.
  - right. split; [by left |]. eexists. by apply calculate_sma_unloaded.
Qed.

Lemma calculate_ema_cases w a :
  (∃ df ema, data a = Some df ∧ 1 ≤ w ∧
             Pandas.ewm_mean w (closes df) = Ok ema ∧
             calculate_ema w a =
               (set_indicator ("EMA_" +:+ pretty w) (Floats ema) a, Ok ema)) ∨
  ((data a = None ∨ w < 1) ∧ ∃ e, calculate_ema w a = (a, Raise e)).
Proof.
  destruct (data a) as [df|] eqn:Hd.
  - destruct (decide (w < 1)) as [Hw | Hw].
    + right. split; [by right |]. eexists.
      apply calculate_ema_raise with df; [done |]. by apply ewm_mean_raise.
    + left. destruct (ewm_mean_is_ok w (closes df)) as (ema & He & _); [lia |].
      exists df, ema. split; [done |]. split; [lia |]. split; [done |].
      by apply calculate_ema_ok with df.
  - right. split; [by left |]. eexists. by apply calculate_ema_unloaded.
Qed.

Lemma rsi_series_cases p xs :
  (∃ rsi, 0 ≤ p ∧ rsi_series p xs = Ok rsi) ∨
  ((p < 0 ∨ 2 ^ 63 ≤ p) ∧ ∃ e, rsi_series p xs = Raise e).
Proof.
  destruct (decide (p < 0)) as [Hneg | Hneg].
  { right. split; [by left |]. eexists. by apply rsi_series_raise. }
  destruct (decide (2 ^ 63 ≤ p ∧ Z.of_nat (length xs) < 2 ^ 63))
    as [[Hbig Hlen] | Hfit].
  { right. split; [by right |]. eexists. by apply rsi_series_overflow. }
  left. destruct (rsi_series_ok p xs) as (rsi & Hr & _); [lia | lia |].
  exists rsi. split; [lia | done].
Qed.

Lemma calculate_rsi_cases p a :
  (∃ df rsi, data a = Some df ∧ 0 ≤ p ∧
             rsi_series p (closes df) = Ok rsi ∧
             calculate_rsi p a = (set_indicator "RSI" (Floats rsi) a, Ok rsi)) ∨
  ((data a = None ∨ p < 0 ∨ 2 ^ 63 ≤ p) ∧
   ∃ e, calculate_rsi p a = (a, Raise e)).
Proof.
  destruct (data a) as [df|] eqn:Hd.
  - destruct (rsi_series_cases p (closes df))
      as [(rsi & Hp & Hr) | [Hbad [e Hr]]].
    + left. exists df, rsi. split; [done |]. split; [done |].
      split; [done |]. by apply calculate_rsi_ok with df.
    + right. split; [by right |]. exists e.
      by apply calculate_rsi_raise with df.
  - right. split; [by left |]. eexists. by apply calculate_rsi_unloaded.
Qed.

Lemma calculate_macd_cases f s g a :
  (∃ df macd sig hist, data a = Some df ∧ 1 ≤ f ∧ 1 ≤ s ∧ 1 ≤ g ∧
     macd_series f s g (closes df) = Ok (macd, sig, hist) ∧
     calculate_macd f s g a =
       (set_indicator "Histogram" (Floats hist)
          (set_indicator "Signal" (Floats sig)
             (set_indicator "MACD" (Floats macd) a)),
        Ok (macd, sig, hist))) ∨
  ((data a = None ∨ f < 1 ∨ s < 1 ∨ g < 1) ∧
   ∃ e, calculate_macd f s g a = (a, Raise e)).
Proof.
  destruct (data a) as [df|] eqn:Hd.
  - destruct (decide (1 ≤ f ∧ 1 ≤ s ∧ 1 ≤ g)) as [(Hf & Hs & Hg) | Hbad].
    + left.
      destruct (macd_series_ok f s g (closes df) Hf Hs Hg)
        as (ef & es & sg & _ & _ & _ & Hrun & _).
      eexists df, _, _, _. repeat (split; [done |]).
      by apply calculate_macd_ok with df.
    + right. split; [right; lia |]. eexists.
      apply calculate_macd_raise with df; [done |].
      apply macd_series_raise. lia.
  - right. split; [by left |]. eexists. by apply calculate_macd_unloaded.
Qed.


(** X7. Every indicator call is all-or-nothing: when it raises, the object
    is exactly as before the call; and whether it raises or not it never
    changes the frame, the symbol, the market type or the timeframe. *)
Theorem indicator_calls_are_atomic (a : analyzer) :
  (∀ w e, snd (calculate_sma w a) = Raise e → fst (calculate_sma w a) = a) ∧
  (∀ w e, snd (calculate_ema w a) = Raise e → fst (calculate_ema w a) = a) ∧
  (∀ p e, snd (calculate_rsi p a) = Raise e → fst (calculate_rsi p a) = a) ∧
  (∀ f s g e, snd (calculate_macd f s g a) = Raise e →
              fst (calculate_macd f s g a) = a) ∧
  (∀ e, snd (detect_trend a) = Raise e → fst (detect_trend a) = a) ∧
  (∀ c, data (exec c a) = data a ∧ symbol (exec c a) = symbol a ∧
        market_type (exec c a) = market_type a ∧
        timeframe (exec c a) = timeframe a).
Proof.
  assert (∀ w, (∀ e, snd (calculate_sma w a) = Raise e →
                     fst (calculate_sma w a) = a) ∧
               data (fst (calculate_sma w a)) = data a ∧
               symbol (fst (calculate_sma w a)) = symbol a ∧
               market_type (fst (calculate_sma w a)) = market_type a ∧
               timeframe (fst (calculate_sma w a)) = timeframe a) as Hsma.
  { intros w. destruct (calculate_sma_cases w a)
      as [(df & sma & _ & _ & _ & ->) | [_ [e ->]]]; cbn; [|done].
    split; [discriminate | done]. }
  assert (∀ w, (∀ e, snd (calculate_ema w a) = Raise e →
                     fst (calculate_ema w a) = a) ∧
               data (fst (calculate_ema w a)) = data a ∧
               symbol (fst (calculate_ema w a)) = symbol a ∧
               market_type (fst (calculate_ema w a)) = market_type a ∧
               timeframe (fst (calculate_ema w a)) = timeframe a) as Hema.
  { intros w. destruct (calculate_ema_cases w a)
      as [(df & ema & _ & _ & _ & ->) | [_ [e ->]]]; cbn; [|done].
    split; [discriminate | done]. }
  assert (∀ p, (∀ e, snd (calculate_rsi p a) = Raise e →
                     fst (calculate_rsi p a) = a) ∧
               data (fst (calculate_rsi p a)) = data a ∧
               symbol (fst (calculate_rsi p a)) = symbol a ∧
               market_type (fst (calculate_rsi p a)) = market_type a ∧
               timeframe (fst (calculate_rsi p a)) = timeframe a) as Hrsi.
  { intros p. destruct (calculate_rsi_cases p a)
      as [(df & rsi & _ & _ & _ & ->) | [_ [e ->]]]; cbn; [|done].
    split; [discriminate | done]. }
  assert (∀ f s g, (∀ e, snd (calculate_macd f s g a) = Raise e →
                         fst (calculate_macd f s g a) = a) ∧
               data (fst (calculate_macd f s g a)) = data a ∧
               symbol (fst (calculate_macd f s g a)) = symbol a ∧
               market_type (fst (calculate_macd f s g a)) = market_type a ∧
               timeframe (fst (calculate_macd f s g a)) = timeframe a)
    as Hmacd.
  { intros f s g. destruct (calculate_macd_cases f s g a)
      as [(df & m & sg & h & _ & _ & _ & _ & _ & ->) | [_ [e ->]]]; cbn;
      [|done].
    split; [discriminate | done]. }
  assert ((∀ e, snd (detect_trend a) = Raise e → fst (detect_trend a) = a) ∧
          data (fst (detect_trend a)) = data a ∧
          symbol (fst (detect_trend a)) = symbol a ∧
          market_type (fst (detect_trend a)) = market_type a ∧
          timeframe (fst (detect_trend a)) = timeframe a) as Htrend.
  { destruct (data a) as [df|] eqn:Hd.
    - destruct (detect_trend_run a df Hd)
        as (s20 & s50 & r & t & _ & _ & _ & -> & _). cbn.
      split; [discriminate | done].
    - rewrite (detect_trend_unloaded a Hd). cbn. by rewrite Hd. }
  split; [intros w; apply Hsma |].
  split; [intros w; apply Hema |].
  split; [intros p; apply Hrsi |].
  split; [intros f s g; apply Hmacd |].
  split; [apply Htrend |].
  intros [w | w | p | f s g |]; cbn [exec].
  - apply Hsma.
  - apply Hema.
  - apply Hrsi.
  - apply Hmacd.
  - apply Htrend.
Qed.

(** ** Keys of the mapping: coexistence, overwriting, repetition *)



Lemma set_indicator_twice k s1 s2 a :
  set_indicator k s2 (set_indicator k s1 a) = set_indicator k s2 a.
Proof. unfold set_indicator. cbn. f_equal. apply insert_insert_eq. Qed.

Lemma set_indicator_id k s a :
  indicators a !! k = Some s → set_indicator k s a = a.
Proof.
  intros H. destruct a as [sy mk tf d ind]. unfold set_indicator. cbn in *.
  f_equal. by apply insert_id.
Qed.



(** X9. Repeating a call changes nothing: for each of the five indicator
    calls, on any object, making the call a second time returns the same
    value or raises the same exception as the first time and leaves the
    object as the first call left it. *)
Theorem indicator_calls_are_idempotent (a : analyzer) :
  (∀ w, calculate_sma w (fst (calculate_sma w a)) = calculate_sma w a) ∧
  (∀ w, calculate_ema w (fst (calculate_ema w a)) = calculate_ema w a) ∧
  (∀ p, calculate_rsi p (fst (calculate_rsi p a)) = calculate_rsi p a) ∧
  (∀ f s g, calculate_macd f s g (fst (calculate_macd f s g a)) =
            calculate_macd f s g a) ∧
  detect_trend (fst (detect_trend a)) = detect_trend a.
Proof.
  split; [|split; [|split; [|split]]].
  - intros w. destruct (calculate_sma_cases w a)
      as [(df & sma & Hd & _ & Hr & E) | [_ [e E]]]; rewrite E; cbn [fst].
    + rewrite (calculate_sma_ok w _ df sma) by done.
      by rewrite set_indicator_twice.
    + exact E.
  - intros w. destruct (calculate_ema_cases w a)
      as [(df & ema & Hd & _ & Hr & E) | [_ [e E]]]; rewrite E; cbn [fst].
    + rewrite (calculate_ema_ok w _ df ema) by done.
      by rewrite set_indicator_twice.
    + exact E.
  - intros p. destruct (calculate_rsi_cases p a)
      as [(df & rsi & Hd & _ & Hr & E) | [_ [e E]]]; rewrite E; cbn [fst].
    + rewrite (calculate_rsi_ok p _ df rsi) by done.
      by rewrite set_indicator_twice.
    + exact E.
  - intros f s g. destruct (calculate_macd_cases f s g a)
      as [(df & m & sg & h & Hd & _ & _ & _ & Hr & E) | [_ [e E]]];
      rewrite E; cbn [fst].
    + rewrite (calculate_macd_ok f s g _ df m sg h) by done. f_equal.
      rewrite (set_indicator_id "MACD") by (by simplify_map_eq).
      rewrite (set_indicator_id "Signal") by (by simplify_map_eq).
      by rewrite (set_indicator_id "Histogram") by (by simplify_map_eq).
    + exact E.
  - destruct (data a) as [df|] eqn:Hd.
    + destruct (detect_trend_run a df Hd)
        as (s20 & s50 & r & t & H20 & H50 & Hr & E & Hl & Hc).
      rewrite E. cbn [fst].
      destruct (detect_trend_run
                  (set_indicator "Trend" (Labels t)
                     (set_indicator "RSI" (Floats r)
                        (set_indicator "SMA_50" (Floats s50)
                           (set_indicator "SMA_20" (Floats s20) a)))) df Hd)
        as (s20' & s50' & r' & t' & H20' & H50' & Hr' & E' & Hl' & Hc').
      assert (s20' = s20) as -> by congruence.
      assert (s50' = s50) as -> by congruence.
      assert (r' = r) as -> by congruence.
      assert (t' = t) as ->.
      { apply list_eq. intros i.
        destruct (decide (i < length df)%nat) as [Hi | Hi].
        - destruct (Hc i Hi) as (x & y & z & Hx & Hy & Hz & ->).
          destruct (Hc' i Hi) as (x' & y' & z' & Hx' & Hy' & Hz' & ->).
          congruence.
        - rewrite !lookup_ge_None_2; [done | lia | lia]. }
      rewrite E'. f_equal.
      rewrite (set_indicator_id "SMA_20") by (by simplify_map_eq).
      rewrite (set_indicator_id "SMA_50") by (by simplify_map_eq).
      rewrite (set_indicator_id "RSI") by (by simplify_map_eq).
      by rewrite (set_indicator_id "Trend") by (by simplify_map_eq).
    + rewrite (detect_trend_unloaded a Hd). cbn [fst].
      by rewrite (detect_trend_unloaded a Hd).
Qed.

(** X10. The RSI is always stored under the one key [RSI], whatever its
    period: a later [calculate_rsi] with a period [0 <= p2 < 2^63] replaces
    the earlier series, so after [RSI(p1)] then [RSI(p2)] the object is the
    one [RSI(p2)] alone would have left, and the series of period [p1] is
    gone. *)
Theorem rsi_last_write_wins (a : analyzer) (df : DataFrame) (p1 p2 : Z) :
  data a = Some df → 0 ≤ p2 → p2 < 2 ^ 63 →
  calculate_rsi p2 (fst (calculate_rsi p1 a)) = calculate_rsi p2 a ∧
  ∃ rsi2, snd (calculate_rsi p2 a) = Ok rsi2 ∧
          indicators (exec_all [CallRSI p1; CallRSI p2] a) !! "RSI"
            = Some (Floats rsi2).
Proof.
  intros Hd Hp2 Hfit.
  destruct (rsi_series_ok p2 (closes df) Hp2 (or_introl Hfit))
    as (r2 & Hr2 & _).
  assert (calculate_rsi p2 (fst (calculate_rsi p1 a)) = calculate_rsi p2 a)
    as Heq.
  { destruct (calculate_rsi_cases p1 a)
      as [(df' & r1 & Hd' & _ & Hr1 & E) | [_ [e E]]]; rewrite E; cbn [fst];
      [|done].
    rewrite (calculate_rsi_ok p2 a df r2 Hd Hr2).
    rewrite (calculate_rsi_ok p2 _ df r2) by done.
    by rewrite set_indicator_twice. }
  split; [exact Heq |].
  exists r2. cbn [exec_all foldl exec]. rewrite Heq.
  rewrite (calculate_rsi_ok p2 a df r2 Hd Hr2). cbn.
  split; [done |]. apply lookup_insert_eq.
Qed.

Lemma rsi_last_write_wins_witness :
  calculate_rsi 14 (fst (calculate_rsi 7 (session "stock" (ramp 10 60)))) =
    calculate_rsi 14 (session "stock" (ramp 10 60)) ∧
  ∃ rsi2, snd (calculate_rsi 14 (session "stock" (ramp 10 60))) = Ok rsi2 ∧
          indicators (exec_all [CallRSI 7; CallRSI 14]
                               (session "stock" (ramp 10 60))) !! "RSI"
            = Some (Floats rsi2).
Proof.
  apply (rsi_last_write_wins (session "stock" (ramp 10 60))
           (frame_of (ramp 10 60)) 7 14); [reflexivity | lia | lia].
Defined.

(** ** The whole run of [main] *)

Lemma compute_indicators_lengths a df :
  data a = Some df →
  ∃ sma20 sma50 ema20 rsi macd sig hist,
    compute_indicators a =
      (set_indicator "Histogram" (Floats hist)
         (set_indicator "Signal" (Floats sig)
            (set_indicator "MACD" (Floats macd)
               (set_indicator "RSI" (Floats rsi)
                  (set_indicator "EMA_20" (Floats ema20)
                     (set_indicator "SMA_50" (Floats sma50)
                        (set_indicator "SMA_20" (Floats sma20) a)))))),
       Ok tt) ∧
    length sma20 = length df ∧ length sma50 = length df ∧
    length ema20 = length df ∧ length rsi = length df ∧
    length macd = length df ∧ length sig = length df ∧
    length hist = length df.
Proof.
  intros Hd.
  destruct (Pandas.rolling_mean 20 (closes df)) as [sma20|] eqn:H20;
    [|rewrite rolling_mean_ok in H20 by lia; discriminate].
  destruct (Pandas.rolling_mean 50 (closes df)) as [sma50|] eqn:H50;
    [|rewrite rolling_mean_ok in H50 by lia; discriminate].
  destruct (ewm_mean_is_ok 20 (closes df)) as (ema20 & Hema & Le); [lia |].
  destruct (rsi_series_ok 14 (closes df)) as (rsi & Hrsi & Lr); [lia | lia |].
  destruct (macd_series_ok 12 26 9 (closes df))
    as (ef & es & sg & _ & _ & _ & Hmacd & _); [lia | lia | lia |].
  destruct (macd_series_lengths _ _ _ _ _ _ _ Hmacd) as (Lm & Ls & Lh).
  apply rolling_mean_length in H20 as L20.
  apply rolling_mean_length in H50 as L50.
  rewrite length_closes in *.
  exists sma20, sma50, ema20, rsi, (zip_with fsub ef es), sg,
    (zip_with fsub (zip_with fsub ef es) sg).
  split; [|by repeat split].
  unfold compute_indicators, mbind.
  rewrite (calculate_sma_ok 20 a df sma20 Hd H20).
  rewrite (calculate_sma_ok 50 _ df sma50) by done.
  rewrite (calculate_ema_ok 20 _ df ema20) by done.
  rewrite (calculate_rsi_ok 14 _ df rsi) by done.
  erewrite calculate_macd_ok; [reflexivity | exact Hd | exact Hmacd].
Qed.

(** X11. The computation of [main] can fail in [fetch_data] only.  When the
    fetch raises, the run stops there with that exception and no indicator
    is written.  When the fetch succeeds, whatever frame it loaded (an empty
    one included), every later step succeeds, the frame is not changed, and
    the mapping gains exactly the eight keys [SMA_20], [SMA_50], [EMA_20],
    [RSI], [MACD], [Signal], [Histogram] and [Trend], each holding one cell
    per row of the frame. *)
Theorem run_analysis_fails_only_in_fetch (src : feed) (end_date : Z)
    (a : analyzer) :
  (∀ e, snd (fetch_data src end_date a) = Raise e →
        run_analysis src end_date a =
          (fst (fetch_data src end_date a), Raise e) ∧
        indicators (fst (run_analysis src end_date a)) = indicators a) ∧
  (snd (fetch_data src end_date a) = Ok tt →
   ∃ df,
     data (fst (fetch_data src end_date a)) = Some df ∧
     snd (run_analysis src end_date a) = Ok tt ∧
     data (fst (run_analysis src end_date a)) = Some df ∧
     dom (indicators (fst (run_analysis src end_date a))) =
       canonical_keys ∪ dom (indicators a) ∧
     (∀ k, k ∈ canonical_keys →
           ∃ s, indicators (fst (run_analysis src end_date a)) !! k = Some s ∧
                series_length s = length df) ∧
     (∀ k, k ∉ canonical_keys →
           indicators (fst (run_analysis src end_date a)) !! k =
           indicators a !! k)).
Proof.
  pose proof (fetch_data_indicators src end_date a) as Hind.
  destruct (fetch_data src end_date a) as [a1 r] eqn:F. cbn [fst snd] in *.
  split.
  - intros e ->. unfold run_analysis, mbind. rewrite F. by cbn.
  - intros ->.
    destruct (fetch_data_ok_data src end_date a a1 F) as [df Hd].
    destruct (compute_indicators_lengths a1 df Hd)
      as (s20 & s50 & e20 & r & m & sg & h & C & L20 & L50 & Le & Lr & Lm & Ls
          & Lh).
    match type of C with _ = (?a2, _) =>
      destruct (detect_trend_run a2 df Hd)
        as (s20' & s50' & r' & t & H20 & H50 & Hr & T & Lt & _)
    end.
    apply rolling_mean_length in H20. apply rolling_mean_length in H50.
    apply rsi_series_length in Hr. rewrite length_closes in *.
    exists df. split; [done |].
    unfold run_analysis, mbind. rewrite F, C, T. unfold mret.
    cbn [fst snd data indicators set_indicator]. rewrite Hind.
    split; [done |]. split; [done |]. split; [|split].
    + rewrite !dom_insert_L. unfold canonical_keys. cbn [list_to_set foldr].
      apply set_eq. intros k. rewrite !elem_of_union, !elem_of_singleton.
      rewrite elem_of_empty. tauto.
    + intros k Hk. unfold canonical_keys in Hk.
      rewrite !elem_of_list_to_set, !elem_of_cons in Hk.
      destruct Hk as [-> | [-> | [-> | [-> | [-> | [-> | [-> | [-> | Hk]]]]]]]];
        [| | | | | | | | by apply elem_of_nil in Hk];
        eexists; (split; [by simplify_map_eq |]); cbn [series_length]; done.
    + intros k Hk. unfold canonical_keys in Hk.
      rewrite elem_of_list_to_set in Hk.
      rewrite !lookup_insert_ne; [done | ..];
        intros <-; apply Hk; set_solver.
Qed.

(** ** Histories shorter than the window *)

Lemma rolling_mean_short w xs :
  Z.of_nat (length xs) < w → w < 2 ^ 63 →
  Pandas.rolling_mean w xs = Ok (replicate (length xs) NaN).
Proof.
  intros Hw Hfit. rewrite rolling_mean_ok by lia. f_equal.
  apply list_eq. intros i. rewrite list_lookup_fmap.
  destruct (decide (i < length xs)%nat) as [Hi | Hi].
  - rewrite lookup_seq_lt by done. rewrite lookup_replicate_2 by done.
    cbn. f_equal. apply window_mean_short.
    pose proof (window_at_length_le (Z.to_nat w) i xs). lia.
  - rewrite lookup_seq_ge by lia. symmetry. apply lookup_replicate_None. lia.
Qed.

Lemma rsi_series_short p xs :
  Z.of_nat (length xs) < p → p < 2 ^ 63 →
  rsi_series p xs = Ok (replicate (length xs) NaN).
Proof.
  intros Hp Hfit. unfold rsi_series, rsi_gain, rsi_loss.
  rewrite !rolling_mean_short
    by (by rewrite ?length_rsi_gain_raw, ?length_rsi_loss_raw).
  cbn [rbind]. rewrite length_rsi_gain_raw, length_rsi_loss_raw.
  by rewrite rsi_of_nan.
Qed.

(** X12. A history shorter than the window gives no error and no signal:
    on a frame of [N] rows, [calculate_sma] and [calculate_rsi] with a
    window [N < w < 2^63] return [N] missing cells, and on a frame of fewer
    than 50 rows [detect_trend] succeeds and labels every row Neutral. *)
Theorem short_history_gives_no_signal (a : analyzer) (df : DataFrame) :
  data a = Some df →
  (∀ w, Z.of_nat (length df) < w → w < 2 ^ 63 →
        snd (calculate_sma w a) = Ok (replicate (length df) NaN) ∧
        snd (calculate_rsi w a) = Ok (replicate (length df) NaN)) ∧
  ((length df < 50)%nat →
   snd (detect_trend a) = Ok (replicate (length df) Neutral)).
Proof.
  intros Hd. split.
  - intros w Hw Hfit. rewrite <- (length_closes df) in Hw.
    rewrite (calculate_sma_ok w a df _ Hd (rolling_mean_short w _ Hw Hfit)).
    rewrite (calculate_rsi_ok w a df _ Hd (rsi_series_short w _ Hw Hfit)).
    by rewrite length_closes.
  - intros Hn.
    destruct (detect_trend_run a df Hd)
      as (s20 & s50 & r & t & _ & H50 & _ & -> & Hl & Hc).
    cbn [snd]. f_equal. apply list_eq. intros i.
    destruct (decide (i < length df)%nat) as [Hi | Hi].
    + destruct (Hc i Hi) as (x & y & z & _ & Hy & _ & ->).
      rewrite lookup_replicate_2 by done. f_equal.
      apply classify_nan. right. left.
      rewrite rolling_mean_short in H50 by (rewrite ?length_closes; lia).
      injection H50 as <-.
      apply lookup_replicate_1 in Hy as [-> _]. reflexivity.
    + rewrite lookup_ge_None_2 by lia. symmetry.
      apply lookup_replicate_None. lia.
Qed.

Lemma short_history_gives_no_signal_witness :
  (∀ w, Z.of_nat (length (frame_of (ramp 10 30))) < w → w < 2 ^ 63 →
        snd (calculate_sma w (session "stock" (ramp 10 30))) =
          Ok (replicate (length (frame_of (ramp 10 30))) NaN) ∧
        snd (calculate_rsi w (session "stock" (ramp 10 30))) =
          Ok (replicate (length (frame_of (ramp 10 30))) NaN)) ∧
  ((length (frame_of (ramp 10 30)) < 50)%nat →
   snd (detect_trend (session "stock" (ramp 10 30))) =
     Ok (replicate (length (frame_of (ramp 10 30))) Neutral)).
Proof.
  apply (short_history_gives_no_signal (session "stock" (ramp 10 30))
           (frame_of (ramp 10 30))).
  reflexivity.
Defined.

(** ** Moving averages stay inside the range of the closes *)

Lemma within_finite lo hi x : within lo hi x → is_finite x = true.
Proof. by destruct x. Qed.

Lemma within_all_finite lo hi xs : Forall (within lo hi) xs → all_finite xs.
Proof.
  intros H. eapply Forall_impl; [exact H |]. intros x. apply within_finite.
Qed.

Lemma Qz_succ (n : nat) : Qz (Z.of_nat (S n)) = (Qz (Z.of_nat n) + 1)%Qc.
Proof. by rewrite Nat2Z.inj_succ, <- Z.add_1_r, Qz_add, Qz_1. Qed.

Lemma fsum_within lo hi xs :
  Forall (within lo hi) xs →
  ∃ s, Pandas.fsum xs = Fin s ∧
       (Qz (Z.of_nat (length xs)) * lo ≤ s)%Qc ∧
       (s ≤ Qz (Z.of_nat (length xs)) * hi)%Qc.
Proof.
  induction 1 as [|x xs Hx _ IH].
  - exists (Qz 0). split; [reflexivity |].
    cbn [length]. change (Z.of_nat 0) with 0. rewrite !Qz_0.
    rewrite !Qcmult_0_l. split; apply Qcle_refl.
  - destruct IH as (s & Hs & Hlo & Hhi).
    destruct x as [| | |q]; try done. destruct Hx as [Hq1 Hq2].
    exists (q + s)%Qc. split; [by rewrite fsum_cons, Hs |].
    cbn [length]. rewrite Qz_succ. split.
    + replace ((Qz (Z.of_nat (length xs)) + 1) * lo)%Qc
        with (lo + Qz (Z.of_nat (length xs)) * lo)%Qc by ring.
      by apply Qcplus_le_compat.
    + replace ((Qz (Z.of_nat (length xs)) + 1) * hi)%Qc
        with (hi + Qz (Z.of_nat (length xs)) * hi)%Qc by ring.
      by apply Qcplus_le_compat.
Qed.








(** ** A flat market *)
















(** ** A rising market *)

Lemma finite_lookup xs j :
  all_finite xs → (j < length xs)%nat → ∃ q, xs !! j = Some (Fin q).
Proof.
  intros Hfin Hj. destruct (lookup_lt_is_Some_2 xs j Hj) as [x Hx].
  pose proof (Forall_lookup_1 _ _ _ _ Hfin Hx) as Hf.
  destruct x as [| | |q]; try discriminate. by exists q.
Qed.

Lemma increasing_le xs :
  all_finite xs → strictly_increasing xs →
  ∀ t j x y, xs !! j = Some (Fin x) → xs !! (j + t)%nat = Some (Fin y) →
             (x ≤ y)%Qc.
Proof.
  intros Hfin Hinc. induction t as [|t IH]; intros j x y Hx Hy.
  - rewrite Nat.add_0_r in Hy. assert (x = y) as -> by congruence.
    apply Qcle_refl.
  - replace (j + S t)%nat with (S (j + t)) in Hy by lia.
    destruct (finite_lookup xs (j + t) Hfin) as [z Hz].
    { apply lookup_lt_Some in Hy. lia. }
    apply Qcle_trans with z; [by apply (IH j) |].
    apply Qclt_le_weak, flt_fin. by apply (Hinc (j + t)%nat).
Qed.

Lemma increasing_segment_within xs d n lo hi :
  all_finite xs → strictly_increasing xs →
  xs !! d = Some (Fin lo) → xs !! (d + n - 1)%nat = Some (Fin hi) →
  Forall (within lo hi) (take n (drop d xs)).
Proof.
  intros Hfin Hinc Hlo Hhi. apply Forall_lookup_2. intros m x Hx.
  apply lookup_take_Some in Hx as [Hx Hm]. rewrite lookup_drop in Hx.
  pose proof (Forall_lookup_1 _ _ _ _ Hfin Hx) as Hf.
  destruct x as [| | |q]; try discriminate. cbn [within]. split.
  - by apply (increasing_le xs Hfin Hinc m d).
  - apply (increasing_le xs Hfin Hinc (n - 1 - m) (d + m)); [done |].
    by replace (d + m + (n - 1 - m))%nat with (d + n - 1)%nat by lia.
Qed.

Lemma fsum_app_fin xs ys a b :
  Pandas.fsum xs = Fin a → Pandas.fsum ys = Fin b → all_finite xs →
  Pandas.fsum (xs ++ ys) = Fin (a + b)%Qc.
Proof.
  intros Ha Hb Hfin. revert a Ha.
  induction Hfin as [|x xs Hx Hxs IH]; intros a Ha.
  - cbn in Ha. injection Ha as <-. cbn [app]. rewrite Hb. f_equal.
    rewrite Qz_0. ring.
  - destruct x as [| | |q]; try discriminate.
    destruct (fsum_all_finite xs Hxs) as [s Hs].
    rewrite fsum_cons, Hs in Ha. cbn [fadd] in Ha. injection Ha as <-.
    cbn [app]. rewrite fsum_cons, (IH s Hs). cbn [fadd]. f_equal. ring.
Qed.

Lemma mean_suffix_gt (sA sB al b0 n m : Qc) :
  (0 < n)%Qc → (0 < m)%Qc → (sA ≤ n * al)%Qc → (m * b0 ≤ sB)%Qc →
  (al < b0)%Qc → ((sA + sB) / (n + m) < sB / m)%Qc.
Proof.
  intros Hn Hm HA HB Hlt.
  assert (m * sA < n * sB)%Qc as K.
  { apply Qcle_lt_trans with (m * (n * al))%Qc;
      [by apply Qcmult_le_mono_nonneg_l; [apply Qclt_le_weak |] |].
    apply Qclt_le_trans with (n * (m * b0))%Qc;
      [|by apply Qcmult_le_mono_nonneg_l; [apply Qclt_le_weak |]].
    replace (n * (m * b0))%Qc with (m * (n * b0))%Qc by ring.
    apply (proj1 (Qcmult_lt_mono_pos_l _ _ m Hm)).
    by apply (proj1 (Qcmult_lt_mono_pos_l _ _ n Hn)). }
  assert (0 < n + m)%Qc as Hnm by (by apply Qcplus_pos_pos).
  pose proof (Qc_pos_ne_0 _ Hm) as Hm0.
  pose proof (Qc_pos_ne_0 _ Hnm) as Hnm0.
  apply (proj2 (Qclt_minus_iff _ _)).
  replace (sB / m + - ((sA + sB) / (n + m)))%Qc
    with ((n * sB + - (m * sA)) * / (m * (n + m)))%Qc by (by field).
  apply Qcmult_pos_pos.
  - by apply (proj1 (Qclt_minus_iff _ _)).
  - apply Qcinv_pos. by apply Qcmult_pos_pos.
Qed.

Lemma sma_order_increasing xs (w1 w2 i : nat) :
  all_finite xs → strictly_increasing xs →
  (0 < w1)%nat → (w1 < w2)%nat → (w2 ≤ S i)%nat → (i < length xs)%nat →
  ∃ m1 m2,
    Pandas.window_mean w1 (Pandas.window_at w1 i xs) = Fin m1 ∧
    Pandas.window_mean w2 (Pandas.window_at w2 i xs) = Fin m2 ∧
    (m2 < m1)%Qc.
Proof.
  intros Hfin Hinc Hw1 Hw12 Hw2 Hi.
  destruct (window_at_full w1 i xs) as [E1 L1]; [lia | done |].
  destruct (window_at_full w2 i xs) as [E2 L2]; [lia | done |].
  assert (Pandas.window_at w2 i xs =
          take (w2 - w1) (drop (S i - w2) xs) ++ Pandas.window_at w1 i xs)
    as Happ.
  { rewrite E1, E2.
    replace (S i - w1)%nat with (S i - w2 + (w2 - w1))%nat by lia.
    rewrite <- drop_drop, take_take_drop. f_equal. lia. }
  destruct (finite_lookup xs (S i - w2) Hfin) as [lo Hlo]; [lia |].
  destruct (finite_lookup xs (S i - w2 + (w2 - w1) - 1) Hfin) as [al Hal];
    [lia |].
  destruct (finite_lookup xs (S i - w1) Hfin) as [b0 Hb0]; [lia |].
  destruct (finite_lookup xs (S i - w1 + w1 - 1) Hfin) as [hi Hhi]; [lia |].
  pose proof (increasing_segment_within xs _ (w2 - w1) lo al Hfin Hinc
                Hlo Hal) as HA.
  pose proof (increasing_segment_within xs _ w1 b0 hi Hfin Hinc Hb0 Hhi)
    as HB.
  rewrite <- E1 in HB.
  destruct (fsum_within _ _ _ HA) as (sA & HsA & _ & HsA').
  destruct (fsum_within _ _ _ HB) as (sB & HsB & HsB' & _).
  rewrite L1 in HsB'.
  rewrite length_take, length_drop in HsA'.
  replace ((w2 - w1) `min` (length xs - (S i - w2)))%nat
    with (w2 - w1)%nat in HsA' by lia.
  destruct (window_mean_all_finite w1 _ Hw1 L1 (within_all_finite _ _ _ HB))
    as (s1 & Hs1 & M1).
  destruct (window_mean_all_finite w2 (Pandas.window_at w2 i xs))
    as (s2 & Hs2 & M2); [lia | done | by apply Forall_window_at |].
  assert (s1 = sB) as -> by congruence.
  rewrite Happ in Hs2.
  rewrite (fsum_app_fin _ _ sA sB HsA HsB (within_all_finite _ _ _ HA))
    in Hs2.
  injection Hs2 as <-.
  exists (sB / Qz (Z.of_nat w1))%Qc, ((sA + sB) / Qz (Z.of_nat w2))%Qc.
  split; [done |]. split; [done |].
  replace (Z.of_nat w2) with (Z.of_nat (w2 - w1) + Z.of_nat w1) by lia.
  rewrite Qz_add.
  apply mean_suffix_gt with al b0; try done.
  - apply Qz_pos. lia.
  - apply Qz_pos. lia.
  - apply flt_fin.
    apply (Hinc (S i - w2 + (w2 - w1) - 1)%nat); [done |].
    by replace (S (S i - w2 + (w2 - w1) - 1)) with (S i - w1)%nat by lia.
Qed.

(** X15. A steadily rising market is read as Bullish.  When the closes of
    the frame are numbers that rise strictly from each row to the next,
    [detect_trend] succeeds and labels every row from row 49 on Bullish
    (there SMA(20) is above SMA(50) and the RSI is 100); the rows before
    row 49 are Neutral. *)
Theorem rising_market_is_bullish (a : analyzer) (df : DataFrame) :
  data a = Some df → all_finite (closes df) →
  strictly_increasing (closes df) →
  ∃ trend,
    snd (detect_trend a) = Ok trend ∧ length trend = length df ∧
    ∀ i, (i < length df)%nat →
         trend !! i = Some (if (i <? 49)%nat then Neutral else Bullish).
Proof.
  intros Hd Hfin Hinc.
  destruct (detect_trend_run a df Hd)
    as (s20 & s50 & r & t & H20 & H50 & Hr & -> & Hl & Hcl).
  exists t. split; [done |]. split; [done |]. intros i Hi.
  destruct (Hcl i Hi) as (x & y & z & Hx & Hy & Hz & ->). f_equal.
  assert (i < length (closes df))%nat as Hi' by (by rewrite length_closes).
  rewrite (rolling_mean_lookup 20 _ _ i H20 Hi') in Hx.
  rewrite (rolling_mean_lookup 50 _ _ i H50 Hi') in Hy.
  injection Hx as <-. injection Hy as <-.
  destruct (i <? 49)%nat eqn:E.
  - apply Nat.ltb_lt in E. apply classify_nan. right. left.
    rewrite window_mean_short; [done |].
    pose proof (window_at_length_le (Z.to_nat 50) i (closes df)). lia.
  - apply Nat.ltb_ge in E.
    destruct (sma_order_increasing (closes df) (Z.to_nat 20) (Z.to_nat 50) i
                Hfin Hinc) as (m1 & m2 & -> & -> & Hlt); [lia .. | done |].
    rewrite (rsi_series_increasing 14 (closes df) r i) in Hz
      by (done || lia).
    injection Hz as <-. unfold classify.
    assert (fgt (Fin m1) (Fin m2) = true) as -> by (by apply flt_fin).
    assert (fgt (Fz 100) (Fz 50) = true) as ->; [|done].
    apply flt_fin. apply (proj1 (Z2Qc_inj_lt _ _)). lia.
Qed.

Lemma rising_market_is_bullish_witness :
  ∃ trend,
    snd (detect_trend (session "stock" (ramp 10 60))) = Ok trend ∧
    length trend = length (frame_of (ramp 10 60)) ∧
    ∀ i, (i < length (frame_of (ramp 10 60)))%nat →
         trend !! i = Some (if (i <? 49)%nat then Neutral else Bullish).
Proof.
  apply (rising_market_is_bullish (session "stock" (ramp 10 60))
           (frame_of (ramp 10 60))).
  - reflexivity.
  - rewrite closes_frame_of. apply ramp_all_finite.
  - rewrite closes_frame_of. apply ramp_strictly_increasing.
Defined.

(** ** A window of one row *)

Lemma window_at_one xs i x :
  xs !! i = Some x → Pandas.window_at 1 i xs = [x].
Proof.
  intros Hx. unfold Pandas.window_at.
  replace (S i - 1)%nat with i by lia.
  rewrite (take_S_r xs i x Hx).
  rewrite drop_app_length'; [done |].
  rewrite length_take. apply lookup_lt_Some in Hx. lia.
Qed.

Lemma window_mean_one x :
  is_inf x = false → Pandas.window_mean 1 [x] = x.
Proof.
  intros Hx. destruct x as [| | |q]; try done.
  unfold Pandas.window_mean. cbn [List.filter is_finite length Nat.leb
    Nat.ltb andb Pandas.fsum foldr fadd]. unfold Fz.
  cbn [fadd]. rewrite fdiv_fin by (apply Qz_ne_0; lia). f_equal.
  change (Z.of_nat 1) with 1. rewrite Qz_0, Qz_1. by field.
Qed.

Lemma rolling_mean_one xs :
  price_series xs → Pandas.rolling_mean 1 xs = Ok xs.
Proof.
  intros Hp. rewrite rolling_mean_ok by lia. f_equal.
  apply list_eq. intros i.
  destruct (xs !! i) as [x|] eqn:Hx.
  - rewrite (rolling_mean_lookup 1 xs _ i
               (rolling_mean_ok 1 xs ltac:(lia) ltac:(lia)))
      by (by apply lookup_lt_Some in Hx).
    change (Z.to_nat 1) with 1%nat.
    rewrite (window_at_one xs i x Hx). f_equal.
    apply window_mean_one. exact (Forall_lookup_1 _ _ _ _ Hp Hx).
  - apply lookup_ge_None. rewrite length_map, length_seq.
    by apply lookup_ge_None.
Qed.

Lemma alpha_of_span_one : Pandas.alpha_of_span 1 = 1%Qc.
Proof.
  rewrite alpha_of_span_eq by lia. rewrite Qz_1. by field.
Qed.

Lemma ema_rec_one xs : ∀ p,
  all_finite xs → ema_rec 1 (Fin p) xs = xs.
Proof.
  induction xs as [|x xs IH]; intros p Hfin; [done |].
  apply Forall_cons in Hfin as [Hx Hxs].
  destruct x as [| | |q]; try discriminate.
  rewrite ema_rec_cons.
  assert (ema_next 1 (Fin q) (Fin p) = Fin q) as ->.
  { unfold ema_next. cbn [fmul fadd]. f_equal. ring. }
  by rewrite IH.
Qed.

Lemma ewm_mean_one xs : all_finite xs → Pandas.ewm_mean 1 xs = Ok xs.
Proof.
  intros Hfin. destruct xs as [|x0 rest]; [done |].
  rewrite (ewm_mean_finite 1 x0 rest ltac:(lia) Hfin). f_equal. f_equal.
  rewrite alpha_of_span_one.
  apply Forall_cons in Hfin as [Hx Hxs].
  destruct x0 as [| | |q]; try discriminate. by apply ema_rec_one.
Qed.

(** X16. A window of one row gives the closes back: [calculate_sma(1)]
    returns the close column itself when it holds no infinite cell (missing
    cells stay missing), and [calculate_ema(1)] returns the close column
    itself when every close is a number. *)
Theorem window_one_reproduces_closes (a : analyzer) (df : DataFrame) :
  data a = Some df →
  (price_series (closes df) → snd (calculate_sma 1 a) = Ok (closes df)) ∧
  (all_finite (closes df) → snd (calculate_ema 1 a) = Ok (closes df)).
Proof.
  intros Hd. split; intros H.
  - by rewrite (calculate_sma_ok 1 a df _ Hd (rolling_mean_one _ H)).
  - by rewrite (calculate_ema_ok 1 a df _ Hd (ewm_mean_one _ H)).
Qed.

Lemma window_one_reproduces_closes_witness :
  (price_series (closes (frame_of (ramp 10 60))) →
   snd (calculate_sma 1 (session "stock" (ramp 10 60))) =
     Ok (closes (frame_of (ramp 10 60)))) ∧
  (all_finite (closes (frame_of (ramp 10 60))) →
   snd (calculate_ema 1 (session "stock" (ramp 10 60))) =
     Ok (closes (frame_of (ramp 10 60)))).
Proof.
  apply (window_one_reproduces_closes (session "stock" (ramp 10 60))
           (frame_of (ramp 10 60))).
  reflexivity.
Defined.

(** ** Values depend on the frame only *)

(** X17. What an indicator call returns depends on the loaded frame and on
    nothing else: two objects holding the same frame get the same value (or
    the same exception) from each of the five calls, whatever their symbol,
    market type and timeframe and whatever their mappings already hold. *)
Theorem indicator_values_depend_only_on_frame (a a' : analyzer) :
  data a = data a' →
  (∀ w, snd (calculate_sma w a) = snd (calculate_sma w a')) ∧
  (∀ w, snd (calculate_ema w a) = snd (calculate_ema w a')) ∧
  (∀ p, snd (calculate_rsi p a) = snd (calculate_rsi p a')) ∧
  (∀ f s g, snd (calculate_macd f s g a) = snd (calculate_macd f s g a')) ∧
  snd (detect_trend a) = snd (detect_trend a').
Proof.
  intros Heq. destruct (data a') as [df|] eqn:Hd'.
  - rename Heq into Hd. split; [|split; [|split; [|split]]].
    + intros w. destruct (Pandas.rolling_mean w (closes df)) as [v|e] eqn:E.
      * by rewrite (calculate_sma_ok w a df v), (calculate_sma_ok w a' df v).
      * by rewrite (calculate_sma_raise w a df e),
          (calculate_sma_raise w a' df e).
    + intros w. destruct (Pandas.ewm_mean w (closes df)) as [v|e] eqn:E.
      * by rewrite (calculate_ema_ok w a df v), (calculate_ema_ok w a' df v).
      * by rewrite (calculate_ema_raise w a df e),
          (calculate_ema_raise w a' df e).
    + intros p. destruct (rsi_series p (closes df)) as [v|e] eqn:E.
      * by rewrite (calculate_rsi_ok p a df v), (calculate_rsi_ok p a' df v).
      * by rewrite (calculate_rsi_raise p a df e),
          (calculate_rsi_raise p a' df e).
    + intros f s g.
      destruct (macd_series f s g (closes df)) as [[[m sg] h]|e] eqn:E.
      * by rewrite (calculate_macd_ok f s g a df m sg h),
          (calculate_macd_ok f s g a' df m sg h).
      * by rewrite (calculate_macd_raise f s g a df e),
          (calculate_macd_raise f s g a' df e).
    + destruct (detect_trend_run a df Hd)
        as (s20 & s50 & r & t & H20 & H50 & Hr & -> & Hl & Hc).
      destruct (detect_trend_run a' df Hd')
        as (s20' & s50' & r' & t' & H20' & H50' & Hr' & -> & Hl' & Hc').
      assert (s20' = s20) as -> by congruence.
      assert (s50' = s50) as -> by congruence.
      assert (r' = r) as -> by congruence.
      cbn [snd]. f_equal. apply list_eq. intros i.
      destruct (decide (i < length df)%nat) as [Hi | Hi].
      * destruct (Hc i Hi) as (x & y & z & Hx & Hy & Hz & ->).
        destruct (Hc' i Hi) as (x' & y' & z' & Hx' & Hy' & Hz' & ->).
        congruence.
      * rewrite !lookup_ge_None_2; [done | lia | lia].
  - rename Heq into Hd. split; [|split; [|split; [|split]]]; intros.
    + by rewrite (calculate_sma_unloaded _ a Hd),
        (calculate_sma_unloaded _ a' Hd').
    + by rewrite (calculate_ema_unloaded _ a Hd),
        (calculate_ema_unloaded _ a' Hd').
    + by rewrite (calculate_rsi_unloaded _ a Hd),
        (calculate_rsi_unloaded _ a' Hd').
    + by rewrite (calculate_macd_unloaded _ _ _ a Hd),
        (calculate_macd_unloaded _ _ _ a' Hd').
    + by rewrite (detect_trend_unloaded a Hd), (detect_trend_unloaded a' Hd').
Qed.

Lemma indicator_values_depend_only_on_frame_witness :
  (∀ w, snd (calculate_sma w (session "stock" (ramp 10 60))) =
        snd (calculate_sma w (exec CallTrend (session "crypto" (ramp 10 60))))) ∧
  (∀ w, snd (calculate_ema w (session "stock" (ramp 10 60))) =
        snd (calculate_ema w (exec CallTrend (session "crypto" (ramp 10 60))))) ∧
  (∀ p, snd (calculate_rsi p (session "stock" (ramp 10 60))) =
        snd (calculate_rsi p (exec CallTrend (session "crypto" (ramp 10 60))))) ∧
  (∀ f s g,
     snd (calculate_macd f s g (session "stock" (ramp 10 60))) =
     snd (calculate_macd f s g
            (exec CallTrend (session "crypto" (ramp 10 60))))) ∧
  snd (detect_trend (session "stock" (ramp 10 60))) =
  snd (detect_trend (exec CallTrend (session "crypto" (ramp 10 60)))).
Proof.
  apply (indicator_values_depend_only_on_frame
           (session "stock" (ramp 10 60))
           (exec CallTrend (session "crypto" (ramp 10 60)))).
  destruct (detect_trend_run (session "crypto" (ramp 10 60))
              (frame_of (ramp 10 60)) eq_refl)
    as (s20 & s50 & r & t & _ & _ & _ & E & _).
  cbn [exec]. by rewrite E.
Defined.

(** ** A falling market *)

Lemma decreasing_ge xs :
  all_finite xs → strictly_decreasing xs →
  ∀ t j x y, xs !! j = Some (Fin x) → xs !! (j + t)%nat = Some (Fin y) →
             (y ≤ x)%Qc.
Proof.
  intros Hfin Hdec. induction t as [|t IH]; intros j x y Hx Hy.
  - rewrite Nat.add_0_r in Hy. assert (x = y) as -> by congruence.
    apply Qcle_refl.
  - replace (j + S t)%nat with (S (j + t)) in Hy by lia.
    destruct (finite_lookup xs (j + t) Hfin) as [z Hz].
    { apply lookup_lt_Some in Hy. lia. }
    apply Qcle_trans with z; [|by apply (IH j)].
    apply Qclt_le_weak, flt_fin. by apply (Hdec (j + t)%nat).
Qed.

Lemma decreasing_segment_within xs d n lo hi :
  all_finite xs → strictly_decreasing xs →
  xs !! d = Some (Fin hi) → xs !! (d + n - 1)%nat = Some (Fin lo) →
  Forall (within lo hi) (take n (drop d xs)).
Proof.
  intros Hfin Hdec Hhi Hlo. apply Forall_lookup_2. intros m x Hx.
  apply lookup_take_Some in Hx as [Hx Hm]. rewrite lookup_drop in Hx.
  pose proof (Forall_lookup_1 _ _ _ _ Hfin Hx) as Hf.
  destruct x as [| | |q]; try discriminate. cbn [within]. split.
  - apply (decreasing_ge xs Hfin Hdec (n - 1 - m) (d + m)); [done |].
    by replace (d + m + (n - 1 - m))%nat with (d + n - 1)%nat by lia.
  - by apply (decreasing_ge xs Hfin Hdec m d).
Qed.

Lemma mean_suffix_lt (sA sB al b0 n m : Qc) :
  (0 < n)%Qc → (0 < m)%Qc → (n * al ≤ sA)%Qc → (sB ≤ m * b0)%Qc →
  (b0 < al)%Qc → (sB / m < (sA + sB) / (n + m))%Qc.
Proof.
  intros Hn Hm HA HB Hlt.
  assert (n * sB < m * sA)%Qc as K.
  { apply Qcle_lt_trans with (n * (m * b0))%Qc;
      [by apply Qcmult_le_mono_nonneg_l; [apply Qclt_le_weak |] |].
    apply Qclt_le_trans with (m * (n * al))%Qc;
      [|by apply Qcmult_le_mono_nonneg_l; [apply Qclt_le_weak |]].
    replace (n * (m * b0))%Qc with (m * (n * b0))%Qc by ring.
    apply (proj1 (Qcmult_lt_mono_pos_l _ _ m Hm)).
    by apply (proj1 (Qcmult_lt_mono_pos_l _ _ n Hn)). }
  assert (0 < n + m)%Qc as Hnm by (by apply Qcplus_pos_pos).
  pose proof (Qc_pos_ne_0 _ Hm) as Hm0.
  pose proof (Qc_pos_ne_0 _ Hnm) as Hnm0.
  apply (proj2 (Qclt_minus_iff _ _)).
  replace ((sA + sB) / (n + m) + - (sB / m))%Qc
    with ((m * sA + - (n * sB)) * / (m * (n + m)))%Qc by (by field).
  apply Qcmult_pos_pos.
  - by apply (proj1 (Qclt_minus_iff _ _)).
  - apply Qcinv_pos. by apply Qcmult_pos_pos.
Qed.

Lemma sma_order_decreasing xs (w1 w2 i : nat) :
  all_finite xs → strictly_decreasing xs →
  (0 < w1)%nat → (w1 < w2)%nat → (w2 ≤ S i)%nat → (i < length xs)%nat →
  ∃ m1 m2,
    Pandas.window_mean w1 (Pandas.window_at w1 i xs) = Fin m1 ∧
    Pandas.window_mean w2 (Pandas.window_at w2 i xs) = Fin m2 ∧
    (m1 < m2)%Qc.
Proof.
  intros Hfin Hdec Hw1 Hw12 Hw2 Hi.
  destruct (window_at_full w1 i xs) as [E1 L1]; [lia | done |].
  destruct (window_at_full w2 i xs) as [E2 L2]; [lia | done |].
  assert (Pandas.window_at w2 i xs =
          take (w2 - w1) (drop (S i - w2) xs) ++ Pandas.window_at w1 i xs)
    as Happ.
  { rewrite E1, E2.
    replace (S i - w1)%nat with (S i - w2 + (w2 - w1))%nat by lia.
    rewrite <- drop_drop, take_take_drop. f_equal. lia. }
  destruct (finite_lookup xs (S i - w2) Hfin) as [hi Hhi]; [lia |].
  destruct (finite_lookup xs (S i - w2 + (w2 - w1) - 1) Hfin) as [al Hal];
    [lia |].
  destruct (finite_lookup xs (S i - w1) Hfin) as [b0 Hb0]; [lia |].
  destruct (finite_lookup xs (S i - w1 + w1 - 1) Hfin) as [lo Hlo]; [lia |].
  pose proof (decreasing_segment_within xs _ (w2 - w1) al hi Hfin Hdec
                Hhi Hal) as HA.
  pose proof (decreasing_segment_within xs _ w1 lo b0 Hfin Hdec Hb0 Hlo)
    as HB.
  rewrite <- E1 in HB.
  destruct (fsum_within _ _ _ HA) as (sA & HsA & HsA' & _).
  destruct (fsum_within _ _ _ HB) as (sB & HsB & _ & HsB').
  rewrite L1 in HsB'.
  rewrite length_take, length_drop in HsA'.
  replace ((w2 - w1) `min` (length xs - (S i - w2)))%nat
    with (w2 - w1)%nat in HsA' by lia.
  destruct (window_mean_all_finite w1 _ Hw1 L1 (within_all_finite _ _ _ HB))
    as (s1 & Hs1 & M1).
  destruct (window_mean_all_finite w2 (Pandas.window_at w2 i xs))
    as (s2 & Hs2 & M2); [lia | done | by apply Forall_window_at |].
  assert (s1 = sB) as -> by congruence.
  rewrite Happ in Hs2.
  rewrite (fsum_app_fin _ _ sA sB HsA HsB (within_all_finite _ _ _ HA))
    in Hs2.
  injection Hs2 as <-.
  exists (sB / Qz (Z.of_nat w1))%Qc, ((sA + sB) / Qz (Z.of_nat w2))%Qc.
  split; [done |]. split; [done |].
  replace (Z.of_nat w2) with (Z.of_nat (w2 - w1) + Z.of_nat w1) by lia.
  rewrite Qz_add.
  apply mean_suffix_lt with al b0; try done.
  - apply Qz_pos. lia.
  - apply Qz_pos. lia.
  - apply flt_fin.
    apply (Hdec (S i - w2 + (w2 - w1) - 1)%nat); [done |].
    by replace (S (S i - w2 + (w2 - w1) - 1)) with (S i - w1)%nat by lia.
Qed.

Lemma decreasing_step xs j :
  all_finite xs → strictly_decreasing xs → (S j < length xs)%nat →
  ∃ q, Pandas.diff xs !! S j = Some (Fin q) ∧ (q < 0)%Qc.
Proof.
  intros Hfin Hdec Hj.
  destruct (finite_lookup xs j Hfin) as [a Hx]; [lia |].
  destruct (finite_lookup xs (S j) Hfin) as [b Hy]; [lia |].
  pose proof (Hdec j _ _ Hx Hy) as Hlt. apply flt_fin in Hlt.
  exists (b + - a)%Qc.
  split; [exact (diff_lookup_S xs j (Fin a) (Fin b) Hx Hy) |].
  apply (proj1 (Qcplus_lt_mono_r b a (- a))) in Hlt.
  by rewrite Qcplus_opp_r in Hlt.
Qed.

Lemma decreasing_gain_zero xs j :
  all_finite xs → strictly_decreasing xs → (j < length xs)%nat →
  rsi_gain_raw xs !! j = Some (Fz 0).
Proof.
  intros Hfin Hdec Hj. destruct j as [|j].
  - destruct xs as [|x xs]; [simpl in Hj; lia |]. apply rsi_raw_first.
  - destruct (decreasing_step xs j Hfin Hdec Hj) as (q & Hq & Hneg).
    rewrite rsi_gain_raw_lookup, Hq. cbn [fmap option_fmap option_map].
    f_equal. unfold gain_cell, fgt, Fz. cbn [flt].
    rewrite bool_decide_eq_false_2; [done |].
    rewrite Qz_0. intros Hpos.
    exact (Qclt_not_le _ _ Hpos (Qclt_le_weak _ _ Hneg)).
Qed.

Lemma decreasing_loss_pos xs j :
  all_finite xs → strictly_decreasing xs → (S j < length xs)%nat →
  ∃ q, rsi_loss_raw xs !! S j = Some (Fin q) ∧ (0 < q)%Qc.
Proof.
  intros Hfin Hdec Hj.
  destruct (decreasing_step xs j Hfin Hdec Hj) as (q & Hq & Hneg).
  exists (- q)%Qc. split.
  - rewrite rsi_loss_raw_lookup, Hq. cbn [fmap option_fmap option_map].
    f_equal. unfold loss_cell, Fz. cbn [flt].
    rewrite bool_decide_eq_true_2; [done |]. by rewrite Qz_0.
  - apply (proj1 (Qclt_minus_iff q 0)) in Hneg.
    by rewrite Qcplus_0_l in Hneg.
Qed.

Lemma rsi_cell_floor l :
  (0 < l)%Qc → rsi_cell (Fin 0%Qc) (Fin l) = Fz 0.
Proof.
  intros Hl. pose proof (Qc_pos_ne_0 _ Hl) as Hl0.
  unfold rsi_cell, Fz. rewrite (fdiv_fin 0 l Hl0). cbn [fadd].
  assert (Qz 1 + 0 / l = 1)%Qc as ->.
  { rewrite Qz_1. unfold Qcdiv. rewrite Qcmult_0_l. ring. }
  rewrite fdiv_fin by discriminate. unfold fsub. cbn [fopp fadd]. f_equal.
  rewrite Qz_0. by field.
Qed.

Lemma rsi_series_decreasing p xs rsi i :
  1 ≤ p → all_finite xs → strictly_decreasing xs →
  rsi_series p xs = Ok rsi →
  p - 1 ≤ Z.of_nat i → (1 ≤ i)%nat → (i < length xs)%nat →
  rsi !! i = Some (Fz 0).
Proof.
  intros Hp Hfin Hdec Hrsi Hi H1 Hlen.
  destruct (rsi_series_inv _ _ _ Hrsi) as (gain & loss & Hg & Hl & -> & _ & _).
  assert (price_series xs) as Hprice.
  { eapply Forall_impl; [exact Hfin |]. by intros [| | |q]. }
  unfold rsi_gain in Hg. unfold rsi_loss in Hl.
  pose proof (rolling_mean_lookup _ _ _ i Hg) as Hgi.
  pose proof (rolling_mean_lookup _ _ _ i Hl) as Hli.
  rewrite length_rsi_gain_raw in Hgi. rewrite length_rsi_loss_raw in Hli.
  specialize (Hgi Hlen). specialize (Hli Hlen).
  set (n := Z.to_nat p) in *.
  assert (1 ≤ n ∧ n ≤ S i)%nat as [Hn1 Hn2] by (subst n; lia).
  (* average loss: positive *)
  destruct (window_at_full n i (rsi_loss_raw xs)) as [_ Ll];
    [lia | by rewrite length_rsi_loss_raw |].
  pose proof (Forall_window_at _ n i _ (rsi_loss_raw_finite xs Hprice)) as Fl.
  destruct (window_mean_all_finite n _ ltac:(lia) Ll Fl) as (sl & Hsl & Hml).
  destruct (fsum_pos _ Fl (Forall_window_at _ n i _ (rsi_loss_raw_nonneg xs)))
    as (sl' & Hsl' & Hpos).
  { destruct i as [|j]; [lia |].
    destruct (decreasing_loss_pos xs j Hfin Hdec Hlen) as (q & Hq & Hq0).
    exists q. split; [|done]. by apply window_at_last. }
  assert (sl' = sl) as -> by congruence.
  (* average gain: zero *)
  destruct (window_at_full n i (rsi_gain_raw xs)) as [_ Lg];
    [lia | by rewrite length_rsi_gain_raw |].
  assert (Forall (fun x => x = Fz 0) (rsi_gain_raw xs)) as Hzero.
  { apply Forall_lookup. intros j x Hx.
    assert (j < length xs)%nat as Hj.
    { rewrite <-length_rsi_gain_raw. by apply lookup_lt_Some in Hx. }
    rewrite (decreasing_gain_zero xs j Hfin Hdec Hj) in Hx. by injection Hx. }
  pose proof (Forall_window_at _ n i _ (rsi_gain_raw_finite xs Hprice)) as Fg.
  destruct (window_mean_all_finite n _ ltac:(lia) Lg Fg) as (sg & Hsg & Hmg).
  rewrite (fsum_zero _ (Forall_window_at _ n i _ Hzero)) in Hsg.
  injection Hsg as <-.
  rewrite Hmg in Hgi. rewrite Hml in Hli.
  rewrite (rsi_of_lookup _ _ _ _ _ Hgi Hli).
  f_equal.
  assert (Qz 0 / Qz (Z.of_nat n) = 0)%Qc as ->.
  { rewrite Qz_0. unfold Qcdiv. apply Qcmult_0_l. }
  apply rsi_cell_floor. apply Qcdiv_pos; [done |]. apply Qz_pos. lia.
Qed.

Lemma length_descent start n : length (descent start n) = n.
Proof. unfold descent. by rewrite length_map, length_seq. Qed.

Lemma descent_lookup start n i :
  (i < n)%nat → descent start n !! i = Some (Fz (start - Z.of_nat i)).
Proof.
  intros Hi. unfold descent. by rewrite list_lookup_fmap, lookup_seq_lt.
Qed.

Lemma descent_all_finite start n : all_finite (descent start n).
Proof. unfold descent. apply Forall_fmap, Forall_true. done. Qed.

Lemma descent_strictly_decreasing start n :
  strictly_decreasing (descent start n).
Proof.
  intros i x y Hx Hy.
  assert (S i < n)%nat as Hi.
  { apply lookup_lt_Some in Hy. by rewrite length_descent in Hy. }
  rewrite descent_lookup in Hx by lia. rewrite descent_lookup in Hy by lia.
  injection Hx as <-. injection Hy as <-.
  apply flt_fin. unfold Qz. apply (proj1 (Z2Qc_inj_lt _ _)). lia.
Qed.

(** X18. A steadily falling market is read as Bearish.  When the closes of
    the frame are numbers that fall strictly from each row to the next,
    [detect_trend] succeeds and labels every row from row 49 on Bearish
    (there SMA(20) is below SMA(50) and the RSI is 0); the rows before
    row 49 are Neutral. *)
Theorem falling_market_is_bearish (a : analyzer) (df : DataFrame) :
  data a = Some df → all_finite (closes df) →
  strictly_decreasing (closes df) →
  ∃ trend,
    snd (detect_trend a) = Ok trend ∧ length trend = length df ∧
    ∀ i, (i < length df)%nat →
         trend !! i = Some (if (i <? 49)%nat then Neutral else Bearish).
Proof.
  intros Hd Hfin Hdec.
  destruct (detect_trend_run a df Hd)
    as (s20 & s50 & r & t & H20 & H50 & Hr & -> & Hl & Hcl).
  exists t. split; [done |]. split; [done |]. intros i Hi.
  destruct (Hcl i Hi) as (x & y & z & Hx & Hy & Hz & ->). f_equal.
  assert (i < length (closes df))%nat as Hi' by (by rewrite length_closes).
  rewrite (rolling_mean_lookup 20 _ _ i H20 Hi') in Hx.
  rewrite (rolling_mean_lookup 50 _ _ i H50 Hi') in Hy.
  injection Hx as <-. injection Hy as <-.
  destruct (i <? 49)%nat eqn:E.
  - apply Nat.ltb_lt in E. apply classify_nan. right. left.
    rewrite window_mean_short; [done |].
    pose proof (window_at_length_le (Z.to_nat 50) i (closes df)). lia.
  - apply Nat.ltb_ge in E.
    destruct (sma_order_decreasing (closes df) (Z.to_nat 20) (Z.to_nat 50) i
                Hfin Hdec) as (m1 & m2 & -> & -> & Hlt); [lia .. | done |].
    rewrite (rsi_series_decreasing 14 (closes df) r i) in Hz
      by (done || lia).
    injection Hz as <-. unfold classify.
    assert (fgt (Fin m1) (Fin m2) = false) as ->.
    { unfold fgt. cbn [flt]. apply bool_decide_eq_false_2.
      intros H. exact (Qclt_not_le _ _ H (Qclt_le_weak _ _ Hlt)). }
    assert (flt (Fin m1) (Fin m2) = true) as -> by (by apply flt_fin).
    assert (flt (Fz 0) (Fz 50) = true) as ->; [|done].
    apply flt_fin. apply (proj1 (Z2Qc_inj_lt _ _)). lia.
Qed.

Lemma falling_market_is_bearish_witness :
  ∃ trend,
    snd (detect_trend (session "stock" (descent 200 60))) = Ok trend ∧
    length trend = length (frame_of (descent 200 60)) ∧
    ∀ i, (i < length (frame_of (descent 200 60)))%nat →
         trend !! i = Some (if (i <? 49)%nat then Neutral else Bearish).
Proof.
  apply (falling_market_is_bearish (session "stock" (descent 200 60))
           (frame_of (descent 200 60))).
  - reflexivity.
  - rewrite closes_frame_of. apply descent_all_finite.
  - rewrite closes_frame_of. apply descent_strictly_decreasing.
Defined.
